(** * The pg_stat_statements collector of postgres_exporter

    A shallow embedding of the two [Update] methods of the repository:

    - [ReadOnly.Update]  : collector/pg_stat_statements.go, which streams
      every scanned row into six counters (the spec's Variant A);
    - [ReadReset.Update] : the second copy of the file, which buffers the
      rows, closes the cursor, runs [pg_stat_statements_reset()] and only
      then sends the counters (the spec's Variant B).

    The collaborators are modelled by what [Update] can observe of them:
    [database/sql] by the outcome of [QueryContext], [Next], [Scan], [Err],
    [Close] and [ExecContext]; the Prometheus client by the metric value
    that [MustNewConstMetric] builds; the channel [ch] by the list of the
    metrics sent on it, oldest first.  A [float64] is an IEEE 754 binary64
    number, so that the conversion [float64(x)] of an [int64] is the
    rounding conversion of Go.  Label values are taken to be valid UTF-8,
    the case in which [MustNewConstMetric] returns, and a send on [ch] is
    taken to complete. *)

From Stdlib Require Import ZArith List String Ascii Bool Lia.
From Stdlib Require Import Floats.SpecFloat.
From Stdlib Require Import DecimalString.
Import ListNotations.

Local Open Scope string_scope.
Local Open Scope Z_scope.
Local Open Scope list_scope.

(* ================================================================= *)
(** ** Go values *)

(** [float64]: IEEE 754 binary64, 53 bits of precision. *)
Definition float64 : Type := spec_float.

Definition float64_prec : Z := 53.
Definition float64_emax : Z := 1024.

(** The constant [0.0]. *)
Definition float64_zero : float64 := S754_zero false.

(** The conversion [float64(n)] of an [int64]: the nearest binary64 number,
    ties to even. *)
Definition float64_of_int64 (n : Z) : float64 :=
  binary_normalize float64_prec float64_emax n 0 false.

(** [float64_is_Z f n]: the number that [f] denotes is the integer [n]. *)
Definition float64_is_Z (f : float64) (n : Z) : bool :=
  match f with
  | S754_zero _ => n =? 0
  | S754_finite s m e =>
      if 0 <=? e then cond_Zopp s (Zpos m) * 2 ^ e =? n
      else cond_Zopp s (Zpos m) =? n * 2 ^ (- e)
  | S754_infinity _ | S754_nan => false
  end.

(** Go's [error] values that [Update] can be handed. *)
Inductive error : Type :=
| ContextError                      (* ctx.Err(): canceled, deadline exceeded *)
| DriverError (msg : string)        (* reported by the driver or the server *)
| ScanArityError (columns dests : nat)
    (* sql: expected [columns] destination arguments in Scan, not [dests] *)
| ScanColumnError (index : nat).    (* sql: Scan error on column index [index] *)

Definition is_scan_error (e : error) : bool :=
  match e with
  | ScanArityError _ _ | ScanColumnError _ => true
  | ContextError | DriverError _ => false
  end.

(* ================================================================= *)
(** ** strconv *)

(** [strconv.FormatInt(n, 10)]. *)
Definition FormatInt (n : Z) : string := NilZero.string_of_int (Z.to_int n).

Definition FormatBool (b : bool) : string := if b then "true" else "false".

Definition digit_of_ascii (c : ascii) : option Z :=
  let n := Z.of_N (N_of_ascii c) in
  if (48 <=? n) && (n <=? 57) then Some (n - 48) else None.

(** The digits of [ParseUint(s, 10, 64)], most significant first, added to
    [acc]; [None] on a character that is not a decimal digit. *)
Fixpoint parse_digits (s : string) (acc : Z) : option Z :=
  match s with
  | EmptyString => Some acc
  | String c s' =>
      match digit_of_ascii c with
      | Some d => parse_digits s' (10 * acc + d)
      | None => None
      end
  end.

Definition ParseUint (s : string) : option Z :=
  match s with
  | EmptyString => None
  | _ => parse_digits s 0
  end.

(** [strconv.ParseInt(s, 10, 64)]: an optional sign, then decimal digits;
    [None] stands for a syntax or a range error. *)
Definition ParseInt (s : string) : option Z :=
  match s with
  | EmptyString => None
  | String c s' =>
      let neg := Ascii.eqb c "-" in
      let body := if Ascii.eqb c "+" || neg then s' else s in
      match ParseUint body with
      | None => None
      | Some un =>
          if negb neg && (2 ^ 63 <=? un) then None
          else if neg && (2 ^ 63 <? un) then None
          else Some (if neg then - un else un)
      end
  end.

(** What the development does not fix: the constant [namespace] of package
    [collector], declared in a file that is not part of the two sources, and
    the float conversions of [strconv]. *)
Class Externals : Type := {
  namespace : string;
  FormatFloat : float64 -> string;          (* FormatFloat(f, 'g', -1, 64) *)
  ParseFloat : string -> option float64     (* ParseFloat(s, 64) *)
}.

(* ================================================================= *)
(** ** database/sql *)

(** [driver.Value], as a driver hands a column to [Scan]. *)
Inductive driverValue : Type :=
| DNil
| DInt64 (i : Z)
| DFloat64 (f : float64)
| DBool (b : bool)
| DBytes (b : string)
| DString (s : string).

Record NullString : Type := { ns_String : string; ns_Valid : bool }.
Record NullInt64 : Type := { ni_Int64 : Z; ni_Valid : bool }.
Record NullFloat64 : Type := { nf_Float64 : float64; nf_Valid : bool }.

Section Convert.
Context {ext : Externals}.

(** [asString(src)] of database/sql's convert.go. *)
Definition asString (src : driverValue) : string :=
  match src with
  | DString s => s
  | DBytes b => b
  | DInt64 i => FormatInt i
  | DFloat64 f => FormatFloat f
  | DBool b => FormatBool b
  | DNil => "<nil>"
  end.

(** [NullString.Scan]: [nil] clears the destination; any other value
    ends up in [String] through [convertAssign], which cannot fail on the
    values above. *)
Definition NullString_Scan (value : driverValue) : option NullString :=
  match value with
  | DNil => Some {| ns_String := ""; ns_Valid := false |}
  | _ => Some {| ns_String := asString value; ns_Valid := true |}
  end.

(** [NullInt64.Scan]: an [int64] is stored as it is, anything else goes
    through [asString] and [ParseInt]. *)
Definition NullInt64_Scan (value : driverValue) : option NullInt64 :=
  match value with
  | DNil => Some {| ni_Int64 := 0; ni_Valid := false |}
  | DInt64 i => Some {| ni_Int64 := i; ni_Valid := true |}
  | _ =>
      match ParseInt (asString value) with
      | Some i => Some {| ni_Int64 := i; ni_Valid := true |}
      | None => None
      end
  end.

(** [NullFloat64.Scan]. *)
Definition NullFloat64_Scan (value : driverValue) : option NullFloat64 :=
  match value with
  | DNil => Some {| nf_Float64 := float64_zero; nf_Valid := false |}
  | DFloat64 f => Some {| nf_Float64 := f; nf_Valid := true |}
  | _ =>
      match ParseFloat (asString value) with
      | Some f => Some {| nf_Float64 := f; nf_Valid := true |}
      | None => None
      end
  end.
End Convert.

(** The nine destinations that both [Update] methods hand to [rows.Scan],
    in the order of the call. *)
Record destinations : Type := {
  dst_user : NullString;
  dst_datname : NullString;
  dst_statement : NullString;        (* [queryid], respectively [query] *)
  dst_callsTotal : NullInt64;
  dst_meanSecondsTotal : NullFloat64;
  dst_maxSecondsTotal : NullFloat64;
  dst_rowsTotal : NullInt64;
  dst_blockReadSecondsTotal : NullFloat64;
  dst_blockWriteSecondsTotal : NullFloat64
}.

(** One column of [Scan]: a failed conversion is reported with the index of
    the column. *)
Definition column {A : Type} (index : nat) (r : option A) : error + A :=
  match r with
  | Some a => inr a
  | None => inl (ScanColumnError index)
  end.

Notation "x <-? c ; k" :=
  (match c with inl e => inl e | inr x => k end)
  (at level 200, c at level 100, k at level 200, right associativity,
   only parsing).

Section Scan.
Context {ext : Externals}.

(** [rows.Scan(&user, &datname, &queryid, &callsTotal, &meanSecondsTotal,
    &maxSecondsTotal, &rowsTotal, &blockReadSecondsTotal,
    &blockWriteSecondsTotal)] on the columns [cols] of the current row:
    the number of columns is compared with the number of destinations
    first, then the columns are converted from left to right. *)
Definition Scan (cols : list driverValue) : error + destinations :=
  match cols with
  | [c0; c1; c2; c3; c4; c5; c6; c7; c8] =>
      user <-? column 0 (NullString_Scan c0);
      datname <-? column 1 (NullString_Scan c1);
      statement <-? column 2 (NullString_Scan c2);
      callsTotal <-? column 3 (NullInt64_Scan c3);
      meanSecondsTotal <-? column 4 (NullFloat64_Scan c4);
      maxSecondsTotal <-? column 5 (NullFloat64_Scan c5);
      rowsTotal <-? column 6 (NullInt64_Scan c6);
      blockReadSecondsTotal <-? column 7 (NullFloat64_Scan c7);
      blockWriteSecondsTotal <-? column 8 (NullFloat64_Scan c8);
      inr {| dst_user := user;
             dst_datname := datname;
             dst_statement := statement;
             dst_callsTotal := callsTotal;
             dst_meanSecondsTotal := meanSecondsTotal;
             dst_maxSecondsTotal := maxSecondsTotal;
             dst_rowsTotal := rowsTotal;
             dst_blockReadSecondsTotal := blockReadSecondsTotal;
             dst_blockWriteSecondsTotal := blockWriteSecondsTotal |}
  | _ => inl (ScanArityError (List.length cols) 9)
  end.
End Scan.

(** A SQL [SELECT] statement, by its clauses. *)
Record statement : Type := {
  select_list : list string;
  from_clause : list string;
  where_clause : option string
}.

(** [*sql.Rows]: the rows that the cursor delivers, each a list of column
    values, and the error with which the iteration ends ([None] when it ends
    at the last row). *)
Record Rows : Type := {
  rows_pending : list (list driverValue);
  rows_Err : option error
}.

(** [*sql.DB]: what the server answers to a query and to a command. *)
Record DB : Type := {
  db_query : statement -> error + Rows;
  db_exec : statement -> option error
}.

(** [context.Context]: [ctx.Err()] when [Update] is called. *)
Record Context : Type := { ctx_Err : option error }.

(** The server answers with as many columns as the select list has. *)
Definition answers (q : statement) (rows : Rows) : Prop :=
  Forall (fun cols => List.length cols = List.length (select_list q)) (rows_pending rows).

(* ================================================================= *)
(** ** The Prometheus client *)

Record Desc : Type := {
  fqName : string;
  help : string;
  variableLabels : list string;
  constLabels : list (string * string)
}.

Definition NewDesc (fqName help : string) (variableLabels : list string)
    (constLabels : list (string * string)) : Desc :=
  {| fqName := fqName; help := help; variableLabels := variableLabels;
     constLabels := constLabels |}.

Definition nonempty (s : string) : bool :=
  match s with EmptyString => false | String _ _ => true end.

(** [prometheus.BuildFQName]: the non-empty parts, joined by "_". *)
Definition BuildFQName (namespace subsystem name : string) : string :=
  if nonempty name then
    ((if nonempty namespace then namespace ++ "_" else "") ++
     (if nonempty subsystem then subsystem ++ "_" else "") ++ name)%string
  else "".

Inductive ValueType : Type := CounterValue | GaugeValue | UntypedValue.

(** A constant metric, as [MustNewConstMetric] builds it. *)
Record Metric : Type := {
  desc : Desc;
  valueType : ValueType;
  value : float64;
  labelValues : list string
}.

Definition MustNewConstMetric (desc : Desc) (valueType : ValueType)
    (value : float64) (labelValues : list string) : Metric :=
  {| desc := desc; valueType := valueType; value := value;
     labelValues := labelValues |}.

(* ================================================================= *)
(** ** One collection cycle as a state transformer *)

(** The calls that [Update] makes on the database handle and on the cursor,
    with what they report. *)
Inductive call : Type :=
| CallQuery (q : statement)        (* db.QueryContext(ctx, q) *)
| CallNext (more : bool)           (* rows.Next() *)
| CallScan (ok : bool)             (* rows.Scan(...) *)
| CallClose                        (* rows.Close() *)
| CallExec (q : statement).        (* db.ExecContext(ctx, q) *)

(** What a cycle changes: whether the cursor of the query is open on the
    server, the calls made so far and the metrics sent on [ch], both oldest
    first. *)
Record world : Type := {
  cursor_open : bool;
  calls : list call;
  ch : list Metric
}.

Definition idle : world := {| cursor_open := false; calls := []; ch := [] |}.

Definition M (A : Type) : Type := world -> A * world.

Definition ret {A : Type} (a : A) : M A := fun w => (a, w).

Definition bind {A B : Type} (c : M A) (k : A -> M B) : M B :=
  fun w => let (a, w') := c w in k a w'.

Notation "x <- c ;; k" := (bind c (fun x => k))
  (at level 61, c at next level, right associativity).
Notation "c ;; k" := (bind c (fun _ => k))
  (at level 61, right associativity).

Definition called (c : call) : M unit :=
  fun w => (tt, {| cursor_open := cursor_open w; calls := calls w ++ [c];
                   ch := ch w |}).

Definition set_cursor (open : bool) : M unit :=
  fun w => (tt, {| cursor_open := open; calls := calls w; ch := ch w |}).

(** [ch <- m]. *)
Definition send (m : Metric) : M unit :=
  fun w => (tt, {| cursor_open := cursor_open w; calls := calls w;
                   ch := ch w ++ [m] |}).

(** [db.QueryContext(ctx, q)]: a context that is already done fails the call
    before the server is asked; a successful query leaves a cursor open. *)
Definition QueryContext (ctx : Context) (db : DB) (q : statement)
    : M (error + Rows) :=
  called (CallQuery q) ;;
  match ctx_Err ctx with
  | Some err => ret (inl err)
  | None =>
      match db_query db q with
      | inl err => ret (inl err)
      | inr rows => set_cursor true ;; ret (inr rows)
      end
  end.

(** [db.ExecContext(ctx, q)]. *)
Definition ExecContext (ctx : Context) (db : DB) (q : statement)
    : M (option error) :=
  called (CallExec q) ;;
  match ctx_Err ctx with
  | Some err => ret (Some err)
  | None => ret (db_exec db q)
  end.

(** [rows.Next()] with the rows [pending]: when there is none left, or the
    iteration fails, [Next] closes the cursor itself and reports [false]. *)
Definition rows_Next (pending : list (list driverValue)) : M bool :=
  match pending with
  | [] => called (CallNext false) ;; set_cursor false ;; ret false
  | _ :: _ => called (CallNext true) ;; ret true
  end.

(** [rows.Scan(...)] on the current row; a failed [Scan] leaves the cursor as
    it is. *)
Definition rows_Scan {ext : Externals} (cols : list driverValue)
    : M (error + destinations) :=
  let r := Scan cols in
  called (CallScan (match r with inl _ => false | inr _ => true end)) ;;
  ret r.

(** [rows.Close()]. *)
Definition rows_Close : M unit :=
  called CallClose ;; set_cursor false.

(** The metrics that a computation sends when it starts with an empty
    channel. *)
Definition sent {A : Type} (c : M A) : list Metric := ch (snd (c idle)).

(* ================================================================= *)
(** ** collector/pg_stat_statements.go: read only *)

Module ReadOnly.
Section Collector.
Context {ext : Externals}.

Definition statStatementsSubsystem : string := "stat_statements".

Definition statSTatementsCallsTotal : Desc :=
  NewDesc (BuildFQName namespace statStatementsSubsystem "calls_total")
    "Number of times executed"
    ["user"; "datname"; "queryid"] [].

Definition statStatementsMeanSecondsTotal : Desc :=
  NewDesc (BuildFQName namespace statStatementsSubsystem "mean_seconds_total")
    "Mean total time spent in the statement, in seconds"
    ["user"; "datname"; "queryid"] [].

Definition statStatementsMaxSecondsTotal : Desc :=
  NewDesc (BuildFQName namespace statStatementsSubsystem "max_seconds_total")
    "Max total time spent in the statement, in seconds"
    ["user"; "datname"; "queryid"] [].

Definition statStatementsRowsTotal : Desc :=
  NewDesc (BuildFQName namespace statStatementsSubsystem "rows_total")
    "Total number of rows retrieved or affected by the statement"
    ["user"; "datname"; "queryid"] [].

Definition statStatementsBlockReadSecondsTotal : Desc :=
  NewDesc
    (BuildFQName namespace statStatementsSubsystem "block_read_seconds_total")
    "Total time the statement spent reading blocks, in seconds"
    ["user"; "datname"; "queryid"] [].

Definition statStatementsBlockWriteSecondsTotal : Desc :=
  NewDesc
    (BuildFQName namespace statStatementsSubsystem "block_write_seconds_total")
    "Total time the statement spent writing blocks, in seconds"
    ["user"; "datname"; "queryid"] [].

Definition pgStatStatementsQuery : statement :=
  {| select_list :=
       [ "pg_get_userbyid(userid) as user";
         "pg_database.datname";
         "pg_stat_statements.queryid";
         "pg_stat_statements.calls as calls_total";
         "pg_stat_statements.mean_plan_time + pg_stat_statements.mean_exec_time / 1000.0 as mean_seconds_total";
         "pg_stat_statements.max_plan_time + pg_stat_statements.max_exec_time / 1000.0 as max_seconds_total";
         "pg_stat_statements.blk_read_time / 1000.0 as block_read_seconds_total";
         "pg_stat_statements.blk_write_time / 1000.0 as block_write_seconds_total" ];
     from_clause :=
       [ "pg_stat_statements";
         "JOIN pg_database ON pg_database.oid = pg_stat_statements.dbid" ];
     where_clause := None |}.

(** The body of the loop after a successful [Scan]: the three labels, then
    one counter after the other. *)
Definition emit (d : destinations) : M unit :=
  let user := dst_user d in
  let datname := dst_datname d in
  let queryid := dst_statement d in
  let callsTotal := dst_callsTotal d in
  let meanSecondsTotal := dst_meanSecondsTotal d in
  let maxSecondsTotal := dst_maxSecondsTotal d in
  let rowsTotal := dst_rowsTotal d in
  let blockReadSecondsTotal := dst_blockReadSecondsTotal d in
  let blockWriteSecondsTotal := dst_blockWriteSecondsTotal d in
  let userLabel := if ns_Valid user then ns_String user else "unknown" in
  let datnameLabel :=
    if ns_Valid datname then ns_String datname else "unknown" in
  let queryidLabel :=
    if ns_Valid queryid then ns_String queryid else "unknown" in
  let callsTotalMetric :=
    if ni_Valid callsTotal then float64_of_int64 (ni_Int64 callsTotal)
    else float64_zero in
  send (MustNewConstMetric statSTatementsCallsTotal CounterValue
          callsTotalMetric [userLabel; datnameLabel; queryidLabel]) ;;
  let meanSecondsTotalMetric :=
    if nf_Valid meanSecondsTotal then nf_Float64 meanSecondsTotal
    else float64_zero in
  send (MustNewConstMetric statStatementsMeanSecondsTotal CounterValue
          meanSecondsTotalMetric [userLabel; datnameLabel; queryidLabel]) ;;
  let maxSecondsTotalMetric :=
    if nf_Valid maxSecondsTotal then nf_Float64 maxSecondsTotal
    else float64_zero in
  send (MustNewConstMetric statStatementsMaxSecondsTotal CounterValue
          maxSecondsTotalMetric [userLabel; datnameLabel; queryidLabel]) ;;
  let rowsTotalMetric :=
    if ni_Valid rowsTotal then float64_of_int64 (ni_Int64 rowsTotal)
    else float64_zero in
  send (MustNewConstMetric statStatementsRowsTotal CounterValue
          rowsTotalMetric [userLabel; datnameLabel; queryidLabel]) ;;
  let blockReadSecondsTotalMetric :=
    if nf_Valid blockReadSecondsTotal then nf_Float64 blockReadSecondsTotal
    else float64_zero in
  send (MustNewConstMetric statStatementsBlockReadSecondsTotal CounterValue
          blockReadSecondsTotalMetric
          [userLabel; datnameLabel; queryidLabel]) ;;
  let blockWriteSecondsTotalMetric :=
    if nf_Valid blockWriteSecondsTotal then nf_Float64 blockWriteSecondsTotal
    else float64_zero in
  send (MustNewConstMetric statStatementsBlockWriteSecondsTotal CounterValue
          blockWriteSecondsTotalMetric
          [userLabel; datnameLabel; queryidLabel]).

(** [for rows.Next() { ... }]: [Some err] when the body returns [err] from
    [Update], [None] when the loop ends. *)
Fixpoint loop (pending : list (list driverValue)) : M (option error) :=
  more <- rows_Next pending ;;
  match more, pending with
  | true, cols :: pending' =>
      r <- rows_Scan cols ;;
      match r with
      | inl err => ret (Some err)
      | inr d => emit d ;; loop pending'
      end
  | _, _ => ret None
  end.

(** [Update]; the deferred [rows.Close()] runs on every return that
    follows a successful query. *)
Definition Update (ctx : Context) (db : DB) : M (option error) :=
  r <- QueryContext ctx db pgStatStatementsQuery ;;
  match r with
  | inl err => ret (Some err)
  | inr rows =>
      result <-
        (returned <- loop (rows_pending rows) ;;
         match returned with
         | Some err => ret (Some err)
         | None =>
             match rows_Err rows with
             | Some err => ret (Some err)
             | None => ret None
             end
         end) ;;
      rows_Close ;;
      ret result
  end.
End Collector.
End ReadOnly.

(* ================================================================= *)
(** ** The second pg_stat_statements.go: read, reset, then send *)

Module ReadReset.
Section Collector.
Context {ext : Externals}.

Definition statStatementsSubsystem : string := "stat_statements".

Definition statSTatementsCallsTotal : Desc :=
  NewDesc (BuildFQName namespace statStatementsSubsystem "calls_total")
    "Number of times executed"
    ["user"; "datname"; "query"] [].

Definition statStatementsMeanSecondsTotal : Desc :=
  NewDesc (BuildFQName namespace statStatementsSubsystem "mean_seconds_total")
    "Mean total time spent in the statement, in seconds"
    ["user"; "datname"; "query"] [].

Definition statStatementsMaxSecondsTotal : Desc :=
  NewDesc (BuildFQName namespace statStatementsSubsystem "max_seconds_total")
    "Max total time spent in the statement, in seconds"
    ["user"; "datname"; "query"] [].

Definition statStatementsRowsTotal : Desc :=
  NewDesc (BuildFQName namespace statStatementsSubsystem "rows_total")
    "Total number of rows retrieved or affected by the statement"
    ["user"; "datname"; "query"] [].

Definition statStatementsBlockReadSecondsTotal : Desc :=
  NewDesc
    (BuildFQName namespace statStatementsSubsystem "block_read_seconds_total")
    "Total time the statement spent reading blocks, in seconds"
    ["user"; "datname"; "query"] [].

Definition statStatementsBlockWriteSecondsTotal : Desc :=
  NewDesc
    (BuildFQName namespace statStatementsSubsystem "block_write_seconds_total")
    "Total time the statement spent writing blocks, in seconds"
    ["user"; "datname"; "query"] [].

(** Statistics of all queries except pg_setting. *)
Definition pgStatStatementsQuery : statement :=
  {| select_list :=
       [ "pg_get_userbyid(userid) as user";
         "pg_database.datname";
         "pg_stat_statements.query";
         "pg_stat_statements.calls as calls_total";
         "pg_stat_statements.mean_plan_time + pg_stat_statements.mean_exec_time / 1000.0 as mean_seconds_total";
         "pg_stat_statements.max_plan_time + pg_stat_statements.max_exec_time / 1000.0 as max_seconds_total";
         "pg_stat_statements.rows as rows_total";
         "pg_stat_statements.blk_read_time / 1000.0 as block_read_seconds_total";
         "pg_stat_statements.blk_write_time / 1000.0 as block_write_seconds_total" ];
     from_clause :=
       [ "pg_stat_statements";
         "JOIN pg_database ON pg_database.oid = pg_stat_statements.dbid" ];
     where_clause := Some "pg_stat_statements.query NOT LIKE '%pg_setting%'" |}.

Definition pgStatStatementsReset : statement :=
  {| select_list := [ "pg_stat_statements_reset()" ];
     from_clause := [];
     where_clause := None |}.

Record pgStatStatementsRow : Type := {
  user : NullString;
  datname : NullString;
  query : NullString;
  callsTotal : NullInt64;
  meanSecondsTotal : NullFloat64;
  maxSecondsTotal : NullFloat64;
  rowsTotal : NullInt64;
  blockReadSecondsTotal : NullFloat64;
  blockWriteSecondsTotal : NullFloat64
}.

(** The row that the first loop appends after a successful [Scan]. *)
Definition newPgStatementsRow (d : destinations) : pgStatStatementsRow :=
  {| user := dst_user d;
     datname := dst_datname d;
     query := dst_statement d;
     callsTotal := dst_callsTotal d;
     meanSecondsTotal := dst_meanSecondsTotal d;
     maxSecondsTotal := dst_maxSecondsTotal d;
     rowsTotal := dst_rowsTotal d;
     blockReadSecondsTotal := dst_blockReadSecondsTotal d;
     blockWriteSecondsTotal := dst_blockWriteSecondsTotal d |}.

(** The first loop, which saves the rows to [rowMetrics]: [inl err] when
    the body returns [err] from [Update], [inr rowMetrics] when the loop
    ends. *)
Fixpoint loop (pending : list (list driverValue))
    (rowMetrics : list pgStatStatementsRow)
    : M (error + list pgStatStatementsRow) :=
  more <- rows_Next pending ;;
  match more, pending with
  | true, cols :: pending' =>
      r <- rows_Scan cols ;;
      match r with
      | inl err => ret (inl err)
      | inr d => loop pending' (rowMetrics ++ [newPgStatementsRow d])
      end
  | _, _ => ret (inr rowMetrics)
  end.

(** The body of the second loop. *)
Definition emit (row : pgStatStatementsRow) : M unit :=
  let userLabel :=
    if ns_Valid (user row) then ns_String (user row) else "unknown" in
  let datnameLabel :=
    if ns_Valid (datname row) then ns_String (datname row) else "unknown" in
  let queryLabel :=
    if ns_Valid (query row) then ns_String (query row) else "unknown" in
  let callsTotalMetric :=
    if ni_Valid (callsTotal row)
    then float64_of_int64 (ni_Int64 (callsTotal row))
    else float64_zero in
  send (MustNewConstMetric statSTatementsCallsTotal CounterValue
          callsTotalMetric [userLabel; datnameLabel; queryLabel]) ;;
  let meanSecondsTotalMetric :=
    if nf_Valid (meanSecondsTotal row)
    then nf_Float64 (meanSecondsTotal row)
    else float64_zero in
  send (MustNewConstMetric statStatementsMeanSecondsTotal CounterValue
          meanSecondsTotalMetric [userLabel; datnameLabel; queryLabel]) ;;
  let maxSecondsTotalMetric :=
    if nf_Valid (maxSecondsTotal row)
    then nf_Float64 (maxSecondsTotal row)
    else float64_zero in
  send (MustNewConstMetric statStatementsMaxSecondsTotal CounterValue
          maxSecondsTotalMetric [userLabel; datnameLabel; queryLabel]) ;;
  let rowsTotalMetric :=
    if ni_Valid (rowsTotal row)
    then float64_of_int64 (ni_Int64 (rowsTotal row))
    else float64_zero in
  send (MustNewConstMetric statStatementsRowsTotal CounterValue
          rowsTotalMetric [userLabel; datnameLabel; queryLabel]) ;;
  let blockReadSecondsTotalMetric :=
    if nf_Valid (blockReadSecondsTotal row)
    then nf_Float64 (blockReadSecondsTotal row)
    else float64_zero in
  send (MustNewConstMetric statStatementsBlockReadSecondsTotal CounterValue
          blockReadSecondsTotalMetric [userLabel; datnameLabel; queryLabel]) ;;
  let blockWriteSecondsTotalMetric :=
    if nf_Valid (blockWriteSecondsTotal row)
    then nf_Float64 (blockWriteSecondsTotal row)
    else float64_zero in
  send (MustNewConstMetric statStatementsBlockWriteSecondsTotal CounterValue
          blockWriteSecondsTotalMetric [userLabel; datnameLabel; queryLabel]).

(** [for _, row := range rowMetrics { ... }]. *)
Fixpoint emit_all (rowMetrics : list pgStatStatementsRow) : M unit :=
  match rowMetrics with
  | [] => ret tt
  | row :: rowMetrics' => emit row ;; emit_all rowMetrics'
  end.

(** [Update]: there is no deferred call; [rows.Close()] and the reset are
    reached only past the two early returns, and what [ExecContext]
    returns is dropped. *)
Definition Update (ctx : Context) (db : DB) : M (option error) :=
  r <- QueryContext ctx db pgStatStatementsQuery ;;
  match r with
  | inl err => ret (Some err)
  | inr rows =>
      saved <- loop (rows_pending rows) [] ;;
      match saved with
      | inl err => ret (Some err)
      | inr rowMetrics =>
          match rows_Err rows with
          | Some err => ret (Some err)
          | None =>
              rows_Close ;;
              ExecContext ctx db pgStatStatementsReset ;;
              emit_all rowMetrics ;;
              ret None
          end
      end
  end.
End Collector.
End ReadReset.

(* ================================================================= *)
(** ** Reading the rows of a cursor *)

(** [scans pending ds]: every row of [pending] scans, into [ds]. *)
Definition scans {ext : Externals} (pending : list (list driverValue))
    (ds : list destinations) : Prop :=
  Forall2 (fun cols d => Scan cols = inr d) pending ds.

(** The calls of [n] turns of a loop whose [Scan] succeeds. *)
Fixpoint reads (n : nat) : list call :=
  match n with
  | O => []
  | S n' => CallNext true :: CallScan true :: reads n'
  end.

Definition is_exec (c : call) : bool :=
  match c with
  | CallExec _ => true
  | _ => false
  end.

Definition scan_ok (c : call) : bool :=
  match c with
  | CallScan true => true
  | _ => false
  end.

(** The number of rows that [Scan] has decoded. *)
Definition scanned (cs : list call) : nat := List.length (filter scan_ok cs).

(** The number of commands run on the handle. *)
Definition execs (cs : list call) : nat := List.length (filter is_exec cs).

(** The world after the calls [cs] and the sends [ms], the cursor being left
    [open]. *)
Definition after (open : bool) (cs : list call) (ms : list Metric)
    (w : world) : world :=
  {| cursor_open := open; calls := calls w ++ cs; ch := ch w ++ ms |}.

(** What [QueryContext] returns. *)
Definition query_outcome (ctx : Context) (db : DB) (q : statement)
    : error + Rows :=
  match ctx_Err ctx with
  | Some err => inl err
  | None => db_query db q
  end.

(** The query succeeds: [QueryContext] returns a cursor, and the iteration
    over it ends without an error ([rows.Err()] is [nil]).  Every other case
    is the spec's [QueryError]: the read itself failed. *)
Definition query_succeeds (ctx : Context) (db : DB) (q : statement)
    (rows : Rows) : Prop :=
  query_outcome ctx db q = inr rows /\ rows_Err rows = None.

(** The two collectors side by side. *)
Inductive variant : Type := ReadOnly_variant | ReadReset_variant.

Section Variants.
Context {ext : Externals}.

Definition pgStatStatementsQuery (v : variant) : statement :=
  match v with
  | ReadOnly_variant => ReadOnly.pgStatStatementsQuery
  | ReadReset_variant => ReadReset.pgStatStatementsQuery
  end.

Definition Update (v : variant) : Context -> DB -> M (option error) :=
  match v with
  | ReadOnly_variant => ReadOnly.Update
  | ReadReset_variant => ReadReset.Update
  end.

(** The metrics that a collector sends for one decoded row. *)
Definition emitted (v : variant) (d : destinations) : list Metric :=
  match v with
  | ReadOnly_variant => sent (ReadOnly.emit d)
  | ReadReset_variant =>
      sent (ReadReset.emit (ReadReset.newPgStatementsRow d))
  end.
End Variants.

(** Every field of the row is present. *)
Definition all_present (d : destinations) : bool :=
  ns_Valid (dst_user d) && ns_Valid (dst_datname d) &&
  ns_Valid (dst_statement d) && ni_Valid (dst_callsTotal d) &&
  nf_Valid (dst_meanSecondsTotal d) && nf_Valid (dst_maxSecondsTotal d) &&
  ni_Valid (dst_rowsTotal d) && nf_Valid (dst_blockReadSecondsTotal d) &&
  nf_Valid (dst_blockWriteSecondsTotal d).

(* ================================================================= *)
(** ** The ways a cycle can go *)

Section Outcomes.
Context {ext : Externals}.

(** The outcome of a cycle of the read-and-reset collector. *)
Inductive ReadReset_cycle (ctx : Context) (db : DB)
    : option error -> world -> Prop :=
| RR_query_fails err :
    query_outcome ctx db ReadReset.pgStatStatementsQuery = inl err ->
    ReadReset_cycle ctx db (Some err)
      {| cursor_open := false;
         calls := [CallQuery ReadReset.pgStatStatementsQuery];
         ch := [] |}
| RR_scan_fails rows before ds cols err rest :
    query_outcome ctx db ReadReset.pgStatStatementsQuery = inr rows ->
    rows_pending rows = before ++ cols :: rest ->
    scans before ds -> Scan cols = inl err ->
    ReadReset_cycle ctx db (Some err)
      {| cursor_open := true;
         calls := CallQuery ReadReset.pgStatStatementsQuery ::
                  reads (List.length ds) ++ [CallNext true; CallScan false];
         ch := [] |}
| RR_iteration_fails rows ds err :
    query_outcome ctx db ReadReset.pgStatStatementsQuery = inr rows ->
    scans (rows_pending rows) ds -> rows_Err rows = Some err ->
    ReadReset_cycle ctx db (Some err)
      {| cursor_open := false;
         calls := CallQuery ReadReset.pgStatStatementsQuery ::
                  reads (List.length ds) ++ [CallNext false];
         ch := [] |}
| RR_succeeds rows ds :
    query_succeeds ctx db ReadReset.pgStatStatementsQuery rows ->
    scans (rows_pending rows) ds ->
    ReadReset_cycle ctx db None
      {| cursor_open := false;
         calls := CallQuery ReadReset.pgStatStatementsQuery ::
                  reads (List.length ds) ++
                  [CallNext false; CallClose;
                   CallExec ReadReset.pgStatStatementsReset];
         ch := flat_map (emitted ReadReset_variant) ds |}.

(** The outcome of a cycle of the read-only collector. *)
Inductive ReadOnly_cycle (ctx : Context) (db : DB)
    : option error -> world -> Prop :=
| RO_query_fails err :
    query_outcome ctx db ReadOnly.pgStatStatementsQuery = inl err ->
    ReadOnly_cycle ctx db (Some err)
      {| cursor_open := false;
         calls := [CallQuery ReadOnly.pgStatStatementsQuery];
         ch := [] |}
| RO_scan_fails rows before ds cols err rest :
    query_outcome ctx db ReadOnly.pgStatStatementsQuery = inr rows ->
    rows_pending rows = before ++ cols :: rest ->
    scans before ds -> Scan cols = inl err ->
    ReadOnly_cycle ctx db (Some err)
      {| cursor_open := false;
         calls := CallQuery ReadOnly.pgStatStatementsQuery ::
                  reads (List.length ds) ++
                  [CallNext true; CallScan false; CallClose];
         ch := flat_map (emitted ReadOnly_variant) ds |}
| RO_drains rows ds :
    query_outcome ctx db ReadOnly.pgStatStatementsQuery = inr rows ->
    scans (rows_pending rows) ds ->
    ReadOnly_cycle ctx db (rows_Err rows)
      {| cursor_open := false;
         calls := CallQuery ReadOnly.pgStatStatementsQuery ::
                  reads (List.length ds) ++ [CallNext false; CallClose];
         ch := flat_map (emitted ReadOnly_variant) ds |}.
End Outcomes.

(* ================================================================= *)
(** ** Sample inputs *)

(** The namespace of postgres_exporter, and float conversions of [strconv]
    that take no string for a number. *)
Definition sample_externals : Externals :=
  {| namespace := "pg";
     FormatFloat := fun _ => "NaN";
     ParseFloat := fun _ => None |}.

(** The binary64 numbers nearest to 0.01, 0.02 and 0.001. *)
Definition f_0_01 : float64 := S754_finite false 5764607523034235 (-59).
Definition f_0_02 : float64 := S754_finite false 5764607523034235 (-58).
Definition f_0_001 : float64 := S754_finite false 4611686018427388 (-62).

(** The row of the spec's example scenario, as the driver delivers it. *)
Definition sample_columns : list driverValue :=
  [ DString "app"; DString "prod"; DString "SELECT 1"; DInt64 42;
    DFloat64 f_0_01; DFloat64 f_0_02; DInt64 1; DFloat64 f_0_001; DNil ].

Definition sample_destinations : destinations :=
  {| dst_user := {| ns_String := "app"; ns_Valid := true |};
     dst_datname := {| ns_String := "prod"; ns_Valid := true |};
     dst_statement := {| ns_String := "SELECT 1"; ns_Valid := true |};
     dst_callsTotal := {| ni_Int64 := 42; ni_Valid := true |};
     dst_meanSecondsTotal := {| nf_Float64 := f_0_01; nf_Valid := true |};
     dst_maxSecondsTotal := {| nf_Float64 := f_0_02; nf_Valid := true |};
     dst_rowsTotal := {| ni_Int64 := 1; ni_Valid := true |};
     dst_blockReadSecondsTotal :=
       {| nf_Float64 := f_0_001; nf_Valid := true |};
     dst_blockWriteSecondsTotal :=
       {| nf_Float64 := float64_zero; nf_Valid := false |} |}.

(** A row in which every column is NULL. *)
Definition null_columns : list driverValue := repeat DNil 9.

Definition null_destinations : destinations :=
  {| dst_user := {| ns_String := ""; ns_Valid := false |};
     dst_datname := {| ns_String := ""; ns_Valid := false |};
     dst_statement := {| ns_String := ""; ns_Valid := false |};
     dst_callsTotal := {| ni_Int64 := 0; ni_Valid := false |};
     dst_meanSecondsTotal := {| nf_Float64 := float64_zero; nf_Valid := false |};
     dst_maxSecondsTotal := {| nf_Float64 := float64_zero; nf_Valid := false |};
     dst_rowsTotal := {| ni_Int64 := 0; ni_Valid := false |};
     dst_blockReadSecondsTotal :=
       {| nf_Float64 := float64_zero; nf_Valid := false |};
     dst_blockWriteSecondsTotal :=
       {| nf_Float64 := float64_zero; nf_Valid := false |} |}.

(** A row whose [calls] column holds text that is not a number. *)
Definition undecodable_columns : list driverValue :=
  [ DString "app"; DString "prod"; DString "SELECT 1"; DString "abc";
    DNil; DNil; DNil; DNil; DNil ].

(** A row in which every field is present and [calls] is 2^53 + 1. *)
Definition large_destinations : destinations :=
  {| dst_user := {| ns_String := "app"; ns_Valid := true |};
     dst_datname := {| ns_String := "prod"; ns_Valid := true |};
     dst_statement := {| ns_String := "SELECT 1"; ns_Valid := true |};
     dst_callsTotal := {| ni_Int64 := 9007199254740993; ni_Valid := true |};
     dst_meanSecondsTotal := {| nf_Float64 := f_0_01; nf_Valid := true |};
     dst_maxSecondsTotal := {| nf_Float64 := f_0_02; nf_Valid := true |};
     dst_rowsTotal := {| ni_Int64 := 1; ni_Valid := true |};
     dst_blockReadSecondsTotal :=
       {| nf_Float64 := f_0_001; nf_Valid := true |};
     dst_blockWriteSecondsTotal :=
       {| nf_Float64 := f_0_001; nf_Valid := true |} |}.

Definition background : Context := {| ctx_Err := None |}.
Definition canceled : Context := {| ctx_Err := Some ContextError |}.

(** A server that answers every query with [pending] and then [err], and
    every command with [reset]. *)
Definition server (pending : list (list driverValue)) (err : option error)
    (reset : option error) : DB :=
  {| db_query := fun _ => inr {| rows_pending := pending; rows_Err := err |};
     db_exec := fun _ => reset |}.

(** A server on which the statistics relation is missing. *)
Definition no_extension : DB :=
  {| db_query := fun _ =>
       inl (DriverError "relation pg_stat_statements does not exist");
     db_exec := fun _ => None |}.

Definition reset_refused : error := DriverError "permission denied".

Definition one_row : Rows :=
  {| rows_pending := [sample_columns]; rows_Err := None |}.

Definition no_row : Rows := {| rows_pending := []; rows_Err := None |}.

(** A row as the read-only query returns it: eight columns. *)
Definition eight_columns : list driverValue :=
  [ DString "app"; DString "prod"; DInt64 7; DInt64 42;
    DFloat64 f_0_01; DFloat64 f_0_02; DFloat64 f_0_001; DNil ].

(* ================================================================= *)
(** ** Rows by the types of their columns *)

Definition is_query (c : call) : bool :=
  match c with
  | CallQuery _ => true
  | _ => false
  end.

Definition is_close (c : call) : bool :=
  match c with
  | CallClose => true
  | _ => false
  end.

(** A row of the result as the server types it: text for the three labels,
    [bigint] for [calls] and [rows], [double precision] for the four times;
    [None] is NULL. *)
Record typed_row : Type := {
  tr_user : option string;
  tr_datname : option string;
  tr_statement : option string;
  tr_calls : option Z;
  tr_mean : option float64;
  tr_max : option float64;
  tr_rows : option Z;
  tr_block_read : option float64;
  tr_block_write : option float64
}.

Definition wire_text (o : option string) : driverValue :=
  match o with Some s => DString s | None => DNil end.

Definition wire_bigint (o : option Z) : driverValue :=
  match o with Some i => DInt64 i | None => DNil end.

Definition wire_double (o : option float64) : driverValue :=
  match o with Some f => DFloat64 f | None => DNil end.

(** The columns that the driver hands to [Scan] for a typed row. *)
Definition wire (r : typed_row) : list driverValue :=
  [ wire_text (tr_user r); wire_text (tr_datname r);
    wire_text (tr_statement r); wire_bigint (tr_calls r);
    wire_double (tr_mean r); wire_double (tr_max r);
    wire_bigint (tr_rows r); wire_double (tr_block_read r);
    wire_double (tr_block_write r) ].

(** The label that stands for a text column, and the counter that stands for
    a number: what the metrics of a typed row are expected to carry. *)
Definition label_of (o : option string) : string :=
  match o with Some s => s | None => "unknown" end.

Definition counter_of_bigint (o : option Z) : float64 :=
  match o with Some i => float64_of_int64 i | None => float64_zero end.

Definition counter_of_double (o : option float64) : float64 :=
  match o with Some f => f | None => float64_zero end.

(** The row in which every absent field of [d] has become a present field
    that holds the default: the text "unknown", the integer 0, the float
    0.0. *)
Definition defaulted (d : destinations) : destinations :=
  let text (s : NullString) :=
    if ns_Valid s then s else {| ns_String := "unknown"; ns_Valid := true |} in
  let int (i : NullInt64) :=
    if ni_Valid i then i else {| ni_Int64 := 0; ni_Valid := true |} in
  let float (f : NullFloat64) :=
    if nf_Valid f then f
    else {| nf_Float64 := float64_zero; nf_Valid := true |} in
  {| dst_user := text (dst_user d);
     dst_datname := text (dst_datname d);
     dst_statement := text (dst_statement d);
     dst_callsTotal := int (dst_callsTotal d);
     dst_meanSecondsTotal := float (dst_meanSecondsTotal d);
     dst_maxSecondsTotal := float (dst_maxSecondsTotal d);
     dst_rowsTotal := int (dst_rowsTotal d);
     dst_blockReadSecondsTotal := float (dst_blockReadSecondsTotal d);
     dst_blockWriteSecondsTotal := float (dst_blockWriteSecondsTotal d) |}.

(** The six descriptors of a collector, in the order of their use. *)
Definition descriptors {ext : Externals} (v : variant) : list Desc :=
  match v with
  | ReadOnly_variant =>
      [ ReadOnly.statSTatementsCallsTotal;
        ReadOnly.statStatementsMeanSecondsTotal;
        ReadOnly.statStatementsMaxSecondsTotal;
        ReadOnly.statStatementsRowsTotal;
        ReadOnly.statStatementsBlockReadSecondsTotal;
        ReadOnly.statStatementsBlockWriteSecondsTotal ]
  | ReadReset_variant =>
      [ ReadReset.statSTatementsCallsTotal;
        ReadReset.statStatementsMeanSecondsTotal;
        ReadReset.statStatementsMaxSecondsTotal;
        ReadReset.statStatementsRowsTotal;
        ReadReset.statStatementsBlockReadSecondsTotal;
        ReadReset.statStatementsBlockWriteSecondsTotal ]
  end.

(** The row of the spec's example scenario, by its types. *)
Definition sample_typed_row : typed_row :=
  {| tr_user := Some "app"; tr_datname := Some "prod";
     tr_statement := Some "SELECT 1"; tr_calls := Some 42;
     tr_mean := Some f_0_01; tr_max := Some f_0_02; tr_rows := Some 1;
     tr_block_read := Some f_0_001; tr_block_write := None |}.

Definition connection_lost : error := DriverError "connection reset by peer".

(* ================================================================= *)
(** ** The conversion of an integer to a binary64 number *)

Lemma digits2_pos_size p : digits2_pos p = Pos.size p.
Proof. induction p; simpl; congruence. Qed.

Lemma digits2_pos_iter p k :
  digits2_pos (Pos.iter xO p k) = (digits2_pos p + k)%positive.
Proof.
  induction k as [|k IH] using Pos.peano_ind.
  - simpl. lia.
  - rewrite Pos.iter_succ. simpl. rewrite IH. lia.
Qed.

Lemma Zpos_iter_xO p k : Zpos (Pos.iter xO p k) = Zpos p * 2 ^ Zpos k.
Proof.
  induction k as [|k IH] using Pos.peano_ind.
  - simpl. lia.
  - rewrite Pos.iter_succ, Pos2Z.inj_xO, IH, Pos2Z.inj_succ, Z.pow_succ_r
      by lia.
    ring.
Qed.

Lemma digits2_pos_bound p : Zpos p < 2 ^ 53 -> Zpos (digits2_pos p) <= 53.
Proof.
  intros Hp. rewrite digits2_pos_size.
  destruct (Z_le_gt_dec (Zpos (Pos.size p)) 53) as [H|H]; [exact H|exfalso].
  pose proof (Pos.size_le p) as Hle.
  apply Pos2Z.pos_le_pos in Hle. rewrite Pos2Z.inj_pow in Hle.
  assert (2 ^ 54 <= 2 ^ Zpos (Pos.size p)) as Hpow
    by (apply Z.pow_le_mono_r; lia).
  lia.
Qed.

(** A mantissa of 53 bits is left as it is. *)
Lemma binary_round_aligned sx mz ez :
  digits2_pos mz = 53%positive -> -1074 <= ez <= 971 ->
  binary_round_aux 53 1024 sx (Zpos mz) ez loc_Exact = S754_finite sx mz ez.
Proof.
  intros Hd He. unfold binary_round_aux, shr_fexp, Zdigits2, fexp, emin.
  rewrite Hd.
  replace (Z.max (53 + ez - 53) (3 - 1024 - 53) - ez) with 0 by lia.
  cbn [shr shr_record_of_loc loc_of_shr_record shr_m round_nearest_even
       Zdigits2].
  rewrite Hd.
  replace (Z.max (53 + ez - 53) (3 - 1024 - 53) - ez) with 0 by lia.
  cbn [shr shr_record_of_loc shr_m].
  replace (ez <=? 1024 - 53) with true by (symmetry; apply Z.leb_le; lia).
  reflexivity.
Qed.

(** Below 2^53 the mantissa is only shifted to the left. *)
Lemma binary_round_small sx p :
  Zpos p < 2 ^ 53 ->
  exists m e, binary_round 53 1024 sx p 0 = S754_finite sx m e /\
              -52 <= e <= 0 /\ Zpos m = Zpos p * 2 ^ (- e).
Proof.
  intros Hp. pose proof (digits2_pos_bound p Hp) as Hd.
  unfold binary_round, fexp, emin, shl_align.
  replace (Z.max (Zpos (digits2_pos p) + 0 - 53) (3 - 1024 - 53))
    with (Zpos (digits2_pos p) - 53) by lia.
  destruct (Zpos (digits2_pos p) - 53 - 0) as [|k|k] eqn:Hk; try lia.
  - exists p, 0.
    rewrite binary_round_aligned by (try lia; apply Pos2Z.inj; lia).
    repeat split; try lia.
  - exists (Pos.iter xO p k), (Zpos (digits2_pos p) - 53).
    rewrite binary_round_aligned.
    + repeat split; try lia. rewrite Zpos_iter_xO. f_equal. f_equal. lia.
    + rewrite digits2_pos_iter. lia.
    + lia.
Qed.

(** Up to 2^53 in absolute value, [float64(n)] denotes [n]. *)
Lemma float64_of_int64_exact n :
  Z.abs n <= 2 ^ 53 -> float64_is_Z (float64_of_int64 n) n = true.
Proof.
  intros Hn. destruct (Z.eq_dec (Z.abs n) (2 ^ 53)) as [Hmax|Hlt].
  - assert (n = 2 ^ 53 \/ n = - 2 ^ 53) as [-> | ->] by lia;
      vm_compute; reflexivity.
  - unfold float64_of_int64, binary_normalize, float64_prec, float64_emax.
    destruct n as [|p|p].
    + reflexivity.
    + destruct (binary_round_small false p) as (m & e & -> & He & Hm); [lia|].
      unfold float64_is_Z, cond_Zopp.
      destruct (0 <=? e) eqn:H0; [apply Z.leb_le in H0|]; apply Z.eqb_eq.
      * replace e with 0 in * by lia. simpl in Hm. lia.
      * lia.
    + destruct (binary_round_small true p) as (m & e & -> & He & Hm); [lia|].
      unfold float64_is_Z, cond_Zopp.
      destruct (0 <=? e) eqn:H0; [apply Z.leb_le in H0|]; apply Z.eqb_eq.
      * replace e with 0 in * by lia. simpl in Hm. lia.
      * rewrite <- Pos2Z.opp_pos. lia.
Qed.

Section Reading.
Context {ext : Externals}.

Lemma scans_or_fails (pending : list (list driverValue)) :
  (exists ds, scans pending ds) \/
  (exists before ds cols err after,
      pending = before ++ cols :: after /\ scans before ds /\
      Scan cols = inl err).
Proof.
  induction pending as [|cols pending IH].
  - left. exists []. constructor.
  - destruct (Scan cols) as [err|d] eqn:Hscan.
    + right. exists [], [], cols, err, pending.
      repeat split; [constructor | assumption].
    + destruct IH as [[ds Hds]|(before & ds & cols' & err & after & -> & Hds & Herr)].
      * left. exists (d :: ds). constructor; assumption.
      * right. exists (cols :: before), (d :: ds), cols', err, after.
        repeat split; [constructor; assumption | assumption].
Qed.

Lemma scans_length pending ds : scans pending ds -> List.length ds = List.length pending.
Proof. intros H. symmetry. exact (Forall2_length H). Qed.

Lemma scanned_reads n : scanned (reads n) = n.
Proof. unfold scanned. induction n as [|n IH]; simpl; [reflexivity | now rewrite IH]. Qed.

Lemma scanned_app cs cs' : scanned (cs ++ cs') = (scanned cs + scanned cs')%nat.
Proof. unfold scanned. now rewrite filter_app, length_app. Qed.

Lemma execs_app cs cs' : execs (cs ++ cs') = (execs cs + execs cs')%nat.
Proof. unfold execs. now rewrite filter_app, length_app. Qed.

Lemma execs_reads n : execs (reads n) = O.
Proof. unfold execs. induction n as [|n IH]; simpl; [reflexivity | exact IH]. Qed.

Lemma exec_not_in_reads n q : ~ In (CallExec q) (reads n).
Proof.
  induction n as [|n IH]; simpl; [tauto|].
  intros [H|[H|H]]; try discriminate. exact (IH H).
Qed.
End Reading.

(* ================================================================= *)
(** ** What the loops do *)

Section Loops.
Context {ext : Externals}.

Lemma after_after o o' cs cs' ms ms' w :
  after o' cs' ms' (after o cs ms w) = after o' (cs ++ cs') (ms ++ ms') w.
Proof. unfold after; simpl. now rewrite !app_assoc. Qed.

Lemma world_eta w : w = after (cursor_open w) [] [] w.
Proof. destruct w; unfold after; simpl. now rewrite !app_nil_r. Qed.

(** *** Read and reset *)

Lemma ReadReset_emit_run row w :
  ReadReset.emit row w =
  (tt, after (cursor_open w) [] (sent (ReadReset.emit row)) w).
Proof.
  unfold ReadReset.emit, sent, bind, send, after; simpl.
  rewrite app_nil_r, <- !app_assoc. reflexivity.
Qed.

Lemma ReadReset_emit_all_run rowMetrics w :
  ReadReset.emit_all rowMetrics w =
  (tt, after (cursor_open w) []
         (flat_map (fun row => sent (ReadReset.emit row)) rowMetrics) w).
Proof.
  revert w. induction rowMetrics as [|row rowMetrics IH]; intros w.
  - simpl. unfold ret. f_equal. apply world_eta.
  - cbn [ReadReset.emit_all flat_map]. unfold bind at 1.
    rewrite ReadReset_emit_run, IH, after_after. reflexivity.
Qed.

Lemma ReadReset_loop_ok pending ds :
  scans pending ds ->
  forall rowMetrics w,
    ReadReset.loop pending rowMetrics w =
    (inr (rowMetrics ++ map ReadReset.newPgStatementsRow ds),
     after false (reads (List.length ds) ++ [CallNext false]) [] w).
Proof.
  induction 1 as [|cols d pending ds Hd _ IH]; intros rowMetrics w.
  - simpl. unfold bind, called, set_cursor, ret, after; simpl.
    now rewrite !app_nil_r.
  - cbn [ReadReset.loop rows_Next]. unfold rows_Scan. rewrite Hd.
    unfold bind, called, ret. cbn [fst snd].
    rewrite IH. unfold after; simpl.
    rewrite <- !app_assoc. reflexivity.
Qed.

Lemma ReadReset_loop_fails before ds cols err rest :
  scans before ds -> Scan cols = inl err ->
  forall rowMetrics w,
    ReadReset.loop (before ++ cols :: rest) rowMetrics w =
    (inl err,
     after (cursor_open w)
       (reads (List.length ds) ++ [CallNext true; CallScan false]) [] w).
Proof.
  intros Hds Herr.
  induction Hds as [|cols' d before ds Hd _ IH]; intros rowMetrics w.
  - cbn [app ReadReset.loop rows_Next]. unfold rows_Scan. rewrite Herr.
    unfold bind, called, ret, after; simpl.
    now rewrite <- !app_assoc, app_nil_r.
  - cbn [app ReadReset.loop rows_Next]. unfold rows_Scan. rewrite Hd.
    unfold bind, called, ret. cbn [fst snd].
    rewrite IH. unfold after; simpl.
    rewrite <- !app_assoc. reflexivity.
Qed.

(** *** Read only *)

Lemma ReadOnly_emit_run d w :
  ReadOnly.emit d w =
  (tt, after (cursor_open w) [] (sent (ReadOnly.emit d)) w).
Proof.
  unfold ReadOnly.emit, sent, bind, send, after; simpl.
  rewrite app_nil_r, <- !app_assoc. reflexivity.
Qed.

Lemma ReadOnly_loop_ok pending ds :
  scans pending ds ->
  forall w,
    ReadOnly.loop pending w =
    (None,
     after false (reads (List.length ds) ++ [CallNext false])
       (flat_map (fun d => sent (ReadOnly.emit d)) ds) w).
Proof.
  induction 1 as [|cols d pending ds Hd _ IH]; intros w.
  - simpl. unfold bind, called, set_cursor, ret, after; simpl.
    now rewrite !app_nil_r.
  - cbn [ReadOnly.loop rows_Next]. unfold rows_Scan. rewrite Hd.
    unfold bind, called, ret. cbn beta iota.
    rewrite ReadOnly_emit_run, IH. unfold after; simpl.
    rewrite <- !app_assoc. reflexivity.
Qed.

Lemma ReadOnly_loop_fails before ds cols err rest :
  scans before ds -> Scan cols = inl err ->
  forall w,
    ReadOnly.loop (before ++ cols :: rest) w =
    (Some err,
     after (cursor_open w)
       (reads (List.length ds) ++ [CallNext true; CallScan false])
       (flat_map (fun d => sent (ReadOnly.emit d)) ds) w).
Proof.
  intros Hds Herr.
  induction Hds as [|cols' d before ds Hd _ IH]; intros w.
  - cbn [app ReadOnly.loop rows_Next]. unfold rows_Scan. rewrite Herr.
    unfold bind, called, ret, after; simpl.
    now rewrite <- !app_assoc, !app_nil_r.
  - cbn [app ReadOnly.loop rows_Next]. unfold rows_Scan. rewrite Hd.
    unfold bind, called, ret. cbn beta iota.
    rewrite ReadOnly_emit_run, IH. unfold after; simpl.
    rewrite <- !app_assoc. reflexivity.
Qed.
End Loops.

(* ================================================================= *)
(** ** What a cycle does, case by case *)

Section Cycle.
Context {ext : Externals}.

Lemma QueryContext_fails ctx db q err w :
  query_outcome ctx db q = inl err ->
  QueryContext ctx db q w = (inl err, after (cursor_open w) [CallQuery q] [] w).
Proof.
  unfold query_outcome, QueryContext, bind, called, ret, after.
  destruct (ctx_Err ctx) as [e|].
  - intros [= ->]. simpl. now rewrite app_nil_r.
  - intros ->. simpl. now rewrite app_nil_r.
Qed.

Lemma QueryContext_opens ctx db q rows w :
  query_outcome ctx db q = inr rows ->
  QueryContext ctx db q w = (inr rows, after true [CallQuery q] [] w).
Proof.
  unfold query_outcome, QueryContext, bind, called, set_cursor, ret, after.
  destruct (ctx_Err ctx) as [e|]; [discriminate|].
  intros ->. simpl. now rewrite app_nil_r.
Qed.

Lemma ExecContext_run ctx db q w :
  snd (ExecContext ctx db q w) = after (cursor_open w) [CallExec q] [] w.
Proof.
  unfold ExecContext, bind, called, ret, after.
  destruct (ctx_Err ctx); simpl; now rewrite app_nil_r.
Qed.

Lemma rows_Close_run w : rows_Close w = (tt, after false [CallClose] [] w).
Proof.
  unfold rows_Close, bind, called, set_cursor, after. simpl.
  now rewrite app_nil_r.
Qed.

(** *** Read and reset *)

Lemma ReadReset_query_fails ctx db err w :
  query_outcome ctx db ReadReset.pgStatStatementsQuery = inl err ->
  ReadReset.Update ctx db w =
  (Some err,
   after (cursor_open w) [CallQuery ReadReset.pgStatStatementsQuery] [] w).
Proof.
  intros H. unfold ReadReset.Update, bind.
  rewrite (QueryContext_fails _ _ _ _ _ H). reflexivity.
Qed.

Lemma ReadReset_scan_fails ctx db rows before ds cols err rest w :
  query_outcome ctx db ReadReset.pgStatStatementsQuery = inr rows ->
  rows_pending rows = before ++ cols :: rest ->
  scans before ds -> Scan cols = inl err ->
  ReadReset.Update ctx db w =
  (Some err,
   after true
     (CallQuery ReadReset.pgStatStatementsQuery ::
      reads (List.length ds) ++ [CallNext true; CallScan false]) [] w).
Proof.
  intros H Hrows Hds Herr. unfold ReadReset.Update, bind.
  rewrite (QueryContext_opens _ _ _ _ _ H), Hrows.
  rewrite (ReadReset_loop_fails _ _ _ _ _ Hds Herr).
  unfold ret. now rewrite after_after.
Qed.

Lemma ReadReset_iteration_fails ctx db rows ds err w :
  query_outcome ctx db ReadReset.pgStatStatementsQuery = inr rows ->
  scans (rows_pending rows) ds -> rows_Err rows = Some err ->
  ReadReset.Update ctx db w =
  (Some err,
   after false
     (CallQuery ReadReset.pgStatStatementsQuery ::
      reads (List.length ds) ++ [CallNext false]) [] w).
Proof.
  intros H Hds Herr. unfold ReadReset.Update, bind.
  rewrite (QueryContext_opens _ _ _ _ _ H).
  rewrite (ReadReset_loop_ok _ _ Hds), Herr.
  unfold ret. now rewrite after_after.
Qed.

Lemma ReadReset_succeeds ctx db rows ds w :
  query_succeeds ctx db ReadReset.pgStatStatementsQuery rows ->
  scans (rows_pending rows) ds ->
  ReadReset.Update ctx db w =
  (None,
   after false
     (CallQuery ReadReset.pgStatStatementsQuery ::
      reads (List.length ds) ++
      [CallNext false; CallClose; CallExec ReadReset.pgStatStatementsReset])
     (flat_map (fun d => sent (ReadReset.emit (ReadReset.newPgStatementsRow d)))
        ds) w).
Proof.
  intros [H Hnil] Hds. unfold ReadReset.Update, bind.
  rewrite (QueryContext_opens _ _ _ _ _ H).
  rewrite (ReadReset_loop_ok _ _ Hds), Hnil.
  rewrite rows_Close_run.
  destruct (ExecContext ctx db ReadReset.pgStatStatementsReset _) as [r w'] eqn:Hexec.
  apply (f_equal snd) in Hexec. rewrite ExecContext_run in Hexec.
  simpl in Hexec. subst w'.
  rewrite ReadReset_emit_all_run. unfold ret. rewrite !after_after.
  cbn [app]. rewrite flat_map_concat_map, map_map, <- flat_map_concat_map.
  rewrite <- !app_assoc. reflexivity.
Qed.

(** *** Read only *)

Lemma ReadOnly_query_fails ctx db err w :
  query_outcome ctx db ReadOnly.pgStatStatementsQuery = inl err ->
  ReadOnly.Update ctx db w =
  (Some err,
   after (cursor_open w) [CallQuery ReadOnly.pgStatStatementsQuery] [] w).
Proof.
  intros H. unfold ReadOnly.Update, bind.
  rewrite (QueryContext_fails _ _ _ _ _ H). reflexivity.
Qed.

Lemma ReadOnly_scan_fails ctx db rows before ds cols err rest w :
  query_outcome ctx db ReadOnly.pgStatStatementsQuery = inr rows ->
  rows_pending rows = before ++ cols :: rest ->
  scans before ds -> Scan cols = inl err ->
  ReadOnly.Update ctx db w =
  (Some err,
   after false
     (CallQuery ReadOnly.pgStatStatementsQuery ::
      reads (List.length ds) ++ [CallNext true; CallScan false; CallClose])
     (flat_map (fun d => sent (ReadOnly.emit d)) ds) w).
Proof.
  intros H Hrows Hds Herr. unfold ReadOnly.Update, bind.
  rewrite (QueryContext_opens _ _ _ _ _ H), Hrows.
  rewrite (ReadOnly_loop_fails _ _ _ _ _ Hds Herr).
  unfold ret. rewrite rows_Close_run, !after_after.
  cbn [app]. rewrite <- !app_assoc, !app_nil_r. reflexivity.
Qed.

Lemma ReadOnly_drains ctx db rows ds w :
  query_outcome ctx db ReadOnly.pgStatStatementsQuery = inr rows ->
  scans (rows_pending rows) ds ->
  ReadOnly.Update ctx db w =
  (rows_Err rows,
   after false
     (CallQuery ReadOnly.pgStatStatementsQuery ::
      reads (List.length ds) ++ [CallNext false; CallClose])
     (flat_map (fun d => sent (ReadOnly.emit d)) ds) w).
Proof.
  intros H Hds. unfold ReadOnly.Update, bind.
  rewrite (QueryContext_opens _ _ _ _ _ H).
  rewrite (ReadOnly_loop_ok _ _ Hds).
  destruct (rows_Err rows) as [err|]; unfold ret;
    rewrite rows_Close_run, !after_after; cbn [app];
    rewrite <- !app_assoc, !app_nil_r; reflexivity.
Qed.
End Cycle.

(* ================================================================= *)
(** ** Every cycle goes one of these ways *)

Section Cases.
Context {ext : Externals}.

Lemma flat_map_six {A : Type} (f : A -> list Metric) (l : list A) :
  (forall a, List.length (f a) = 6%nat) ->
  List.length (flat_map f l) = (6 * List.length l)%nat.
Proof.
  intros Hf. induction l as [|a l IH]; [reflexivity|].
  cbn [flat_map]. rewrite length_app, Hf, IH. simpl. lia.
Qed.

Lemma emitted_six v d : List.length (emitted v d) = 6%nat.
Proof. destruct v; reflexivity. Qed.

(** A call that occurs once, at the end, splits the list in one way. *)
Lemma split_at_last {A : Type} (a : A) (l before later : list A) :
  ~ In a l -> l ++ [a] = before ++ a :: later -> before = l /\ later = [].
Proof.
  revert before. induction l as [|x l IH]; intros before Hnotin Heq.
  - destruct before as [|b before].
    + injection Heq as <-. split; reflexivity.
    + injection Heq as _ Heq. destruct before; discriminate.
  - destruct before as [|b before].
    + injection Heq as -> _. exfalso. apply Hnotin. left. reflexivity.
    + injection Heq as <- Heq.
      destruct (IH before) as [-> ->]; [|assumption|split; reflexivity].
      intros Hin. apply Hnotin. right. exact Hin.
Qed.

Lemma no_exec_while_reading q n tail :
  (forall c, In c tail -> is_exec c = false) ->
  forall q', ~ In (CallExec q') (CallQuery q :: reads n ++ tail).
Proof.
  intros Htail q' [H|H]; [discriminate|].
  apply in_app_or in H. destruct H as [H|H].
  - exact (exec_not_in_reads _ _ H).
  - apply Htail in H. discriminate.
Qed.

Lemma ReadReset_cycle_run ctx db :
  ReadReset_cycle ctx db (fst (ReadReset.Update ctx db idle))
    (snd (ReadReset.Update ctx db idle)).
Proof.
  destruct (query_outcome ctx db ReadReset.pgStatStatementsQuery)
    as [err|rows] eqn:Hq.
  - rewrite (ReadReset_query_fails _ _ _ _ Hq). now apply RR_query_fails.
  - destruct (scans_or_fails (rows_pending rows))
      as [[ds Hds]|(before & ds & cols & err & rest & Hp & Hds & Herr)].
    + destruct (rows_Err rows) as [err|] eqn:He.
      * rewrite (ReadReset_iteration_fails _ _ _ _ _ _ Hq Hds He).
        now apply RR_iteration_fails with rows.
      * rewrite (ReadReset_succeeds _ _ _ _ _ (conj Hq He) Hds).
        apply RR_succeeds with rows; [split|]; assumption.
    + rewrite (ReadReset_scan_fails _ _ _ _ _ _ _ _ _ Hq Hp Hds Herr).
      now apply RR_scan_fails with rows before cols rest.
Qed.

Lemma ReadOnly_cycle_run ctx db :
  ReadOnly_cycle ctx db (fst (ReadOnly.Update ctx db idle))
    (snd (ReadOnly.Update ctx db idle)).
Proof.
  destruct (query_outcome ctx db ReadOnly.pgStatStatementsQuery)
    as [err|rows] eqn:Hq.
  - rewrite (ReadOnly_query_fails _ _ _ _ Hq). now apply RO_query_fails.
  - destruct (scans_or_fails (rows_pending rows))
      as [[ds Hds]|(before & ds & cols & err & rest & Hp & Hds & Herr)].
    + rewrite (ReadOnly_drains _ _ _ _ _ Hq Hds).
      now apply RO_drains.
    + rewrite (ReadOnly_scan_fails _ _ _ _ _ _ _ _ _ Hq Hp Hds Herr).
      now apply RO_scan_fails with rows before cols rest.
Qed.
End Cases.

(* ================================================================= *)
(** ** The properties of the specification *)

Section Claims.
Context {ext : Externals}.

Lemma canceled_context_fails ctx db q err :
  ctx_Err ctx = Some err -> query_outcome ctx db q = inl err.
Proof. unfold query_outcome. now intros ->. Qed.

(** C1 (reset-failure isolation).  When the rows have been read, the cursor
    has ended without an error and the reset command fails, the
    read-and-reset [Update] returns [nil] and has sent, for the rows read
    before the reset and in their order, the metrics of each row; and
    whatever the server answers to the reset, the cycle returns the same
    value and leaves the same channel, calls and cursor. *)
Theorem reset_failure_isolation ctx db rows ds err :
  query_succeeds ctx db ReadReset.pgStatStatementsQuery rows ->
  scans (rows_pending rows) ds ->
  db_exec db ReadReset.pgStatStatementsReset = Some err ->
  (forall w, fst (ExecContext ctx db ReadReset.pgStatStatementsReset w) = Some err) /\
  fst (ReadReset.Update ctx db idle) = None /\
  ch (snd (ReadReset.Update ctx db idle)) =
    flat_map (fun d => sent (ReadReset.emit (ReadReset.newPgStatementsRow d))) ds /\
  cursor_open (snd (ReadReset.Update ctx db idle)) = false /\
  forall reset,
    ReadReset.Update ctx {| db_query := db_query db; db_exec := reset |} idle =
    ReadReset.Update ctx db idle.
Proof.
  intros Hq Hds Hreset.
  assert (Hctx : ctx_Err ctx = None).
  { destruct Hq as [Hq _]. unfold query_outcome in Hq.
    destruct (ctx_Err ctx); [discriminate | reflexivity]. }
  split; [|split; [|split; [|split]]].
  - intros w. unfold ExecContext, bind, called, ret. rewrite Hctx. exact Hreset.
  - now rewrite (ReadReset_succeeds _ _ _ _ _ Hq Hds).
  - now rewrite (ReadReset_succeeds _ _ _ _ _ Hq Hds).
  - now rewrite (ReadReset_succeeds _ _ _ _ _ Hq Hds).
  - intros reset.
    rewrite (ReadReset_succeeds _ _ _ _ _ Hq Hds).
    apply ReadReset_succeeds with (rows := rows); [|assumption].
    destruct Hq as [Hq Hnil]. split; [|assumption].
    unfold query_outcome in *. simpl. exact Hq.
Qed.

(** C2 (ordering law).  In a cycle of the read-and-reset collector, the
    calls that precede the reset command are the query, one [Next] and one
    successful [Scan] for each row of the batch, the [Next] that ends the
    loop and the [Close] of the cursor, in this order, and no call follows
    the reset; when the query fails, when a [Scan] fails, and whenever
    [Update] returns an error, no command is run at all. *)
Theorem reset_after_read_and_close ctx db :
  let cs := calls (snd (ReadReset.Update ctx db idle)) in
  (forall before q later, cs = before ++ CallExec q :: later ->
     exists rows,
       query_outcome ctx db ReadReset.pgStatStatementsQuery = inr rows /\
       q = ReadReset.pgStatStatementsReset /\
       before = CallQuery ReadReset.pgStatStatementsQuery ::
                reads (List.length (rows_pending rows)) ++
                [CallNext false; CallClose] /\
       scanned before = List.length (rows_pending rows) /\
       later = []) /\
  (forall err,
     query_outcome ctx db ReadReset.pgStatStatementsQuery = inl err ->
     execs cs = O) /\
  (In (CallScan false) cs -> execs cs = O) /\
  (fst (ReadReset.Update ctx db idle) <> None -> execs cs = O).
Proof.
  cbv zeta.
  assert (Hno : forall q n tail,
             (forall c, In c tail -> is_exec c = false) ->
             execs (CallQuery q :: reads n ++ tail) = O).
  { intros q n tail Htail. change (CallQuery q :: reads n ++ tail)
      with ([CallQuery q] ++ reads n ++ tail).
    rewrite !execs_app, execs_reads. unfold execs. simpl.
    induction tail as [|c tail IH]; [reflexivity|].
    simpl. rewrite (Htail c) by (left; reflexivity).
    apply IH. intros c' Hc'. apply Htail. right. exact Hc'. }
  assert (Hin : forall (cs : list call) before q later,
             cs = before ++ CallExec q :: later -> execs cs <> O).
  { intros cs before q later ->. rewrite execs_app. unfold execs. simpl. lia. }
  destruct (ReadReset_cycle_run ctx db)
    as [err Hq | rows before' ds cols err rest Hq Hp Hds Herr
        | rows ds err Hq Hds He | rows ds [Hq He] Hds].
  - repeat split; try reflexivity.
    intros before q later Heq. exfalso. revert Heq. simpl.
    destruct before as [|c [|c' before]]; discriminate.
  - assert (Hz : execs (CallQuery ReadReset.pgStatStatementsQuery ::
                   reads (List.length ds) ++ [CallNext true; CallScan false]) = O).
    { apply Hno. intros c [<-|[<-|[]]]; reflexivity. }
    simpl calls. repeat split; try (intros; exact Hz).
    intros before q later Heq. exfalso. exact (Hin _ _ _ _ Heq Hz).
  - assert (Hz : execs (CallQuery ReadReset.pgStatStatementsQuery ::
                   reads (List.length ds) ++ [CallNext false]) = O).
    { apply Hno. intros c [<-|[]]; reflexivity. }
    simpl calls. repeat split; try (intros; exact Hz).
    intros before q later Heq. exfalso. exact (Hin _ _ _ _ Heq Hz).
  - simpl calls. simpl fst. repeat split.
    + intros before q later Heq.
      change (CallQuery ReadReset.pgStatStatementsQuery ::
              reads (List.length ds) ++
              [CallNext false; CallClose;
               CallExec ReadReset.pgStatStatementsReset])
        with ((CallQuery ReadReset.pgStatStatementsQuery ::
               reads (List.length ds)) ++
              [CallNext false; CallClose;
               CallExec ReadReset.pgStatStatementsReset]) in Heq.
      assert (Hshape :
        (CallQuery ReadReset.pgStatStatementsQuery ::
           reads (List.length ds)) ++
        [CallNext false; CallClose; CallExec ReadReset.pgStatStatementsReset] =
        (CallQuery ReadReset.pgStatStatementsQuery ::
           reads (List.length ds) ++ [CallNext false; CallClose]) ++
        [CallExec ReadReset.pgStatStatementsReset]).
      { simpl. rewrite <- app_assoc. reflexivity. }
      rewrite Hshape in Heq. clear Hshape.
      assert (Hnone : forall q',
        ~ In (CallExec q')
            (CallQuery ReadReset.pgStatStatementsQuery ::
               reads (List.length ds) ++ [CallNext false; CallClose])).
      { apply no_exec_while_reading. intros c [<-|[<-|[]]]; reflexivity. }
      assert (q = ReadReset.pgStatStatementsReset) as ->.
      { assert (Hq' : In (CallExec q)
                  ((CallQuery ReadReset.pgStatStatementsQuery ::
                      reads (List.length ds) ++ [CallNext false; CallClose]) ++
                   [CallExec ReadReset.pgStatStatementsReset])).
        { rewrite Heq. apply in_or_app. right. left. reflexivity. }
        apply in_app_or in Hq'. destruct Hq' as [Hq'|[Hq'|[]]].
        - exfalso. exact (Hnone _ Hq').
        - now injection Hq'. }
      apply split_at_last in Heq; [|apply Hnone].
      destruct Heq as [-> ->].
      exists rows. rewrite <- (scans_length _ _ Hds).
      repeat split; try assumption.
      change (CallQuery ReadReset.pgStatStatementsQuery ::
              reads (List.length ds) ++ [CallNext false; CallClose])
        with ([CallQuery ReadReset.pgStatStatementsQuery] ++
              reads (List.length ds) ++ [CallNext false; CallClose]).
      rewrite !scanned_app, scanned_reads. unfold scanned. simpl. lia.
    + intros err Hq'. congruence.
    + intros Hbad. exfalso.
      destruct Hbad as [Hbad|Hbad]; [discriminate|].
      apply in_app_or in Hbad. destruct Hbad as [Hbad|Hbad].
      * clear - Hbad. induction (List.length ds) as [|n IH]; simpl in Hbad.
        -- exact Hbad.
        -- destruct Hbad as [Hbad|[Hbad|Hbad]]; try discriminate. exact (IH Hbad).
      * destruct Hbad as [Hbad|[Hbad|[Hbad|[]]]]; discriminate.
    + intros Hbad. exfalso. apply Hbad. reflexivity.
Qed.

(** C3 (release on every exit path), at an input that breaks it.  The
    server answers with one row whose [calls] column holds the text "abc":
    [Scan] fails on column 3, and the read-and-reset [Update] returns that
    error with the cursor still open, no [Close] among its calls; on the same
    answer the read-only [Update], whose [Close] is deferred, returns the
    error with the cursor closed. *)
Theorem ReadReset_scan_error_leaves_cursor_open :
  let db := server [undecodable_columns] None None in
  ReadReset.Update background db idle =
    (Some (ScanColumnError 3),
     {| cursor_open := true;
        calls := [CallQuery ReadReset.pgStatStatementsQuery;
                  CallNext true; CallScan false];
        ch := [] |}) /\
  ReadOnly.Update background db idle =
    (Some (ScanColumnError 3),
     {| cursor_open := false;
        calls := [CallQuery ReadOnly.pgStatStatementsQuery;
                  CallNext true; CallScan false; CallClose];
        ch := [] |}).
Proof. split; reflexivity. Qed.

(** C4 (six observations per row).  When [Update] returns [nil], in either
    variant, the query has returned a cursor, every row of it has been
    decoded by [Scan], and the channel holds the six metrics of each of
    these N rows, in their order, and nothing else: 6 N metrics. *)
Theorem six_observations_per_row v ctx db :
  fst (Update v ctx db idle) = None ->
  exists rows ds,
    query_outcome ctx db (pgStatStatementsQuery v) = inr rows /\
    scans (rows_pending rows) ds /\
    scanned (calls (snd (Update v ctx db idle))) = List.length ds /\
    ch (snd (Update v ctx db idle)) = flat_map (emitted v) ds /\
    List.length (ch (snd (Update v ctx db idle))) = (6 * List.length ds)%nat.
Proof.
  assert (Hscanned : forall q n tail,
             (forall c, In c tail -> scan_ok c = false) ->
             scanned (CallQuery q :: reads n ++ tail) = n).
  { intros q n tail Htail. change (CallQuery q :: reads n ++ tail)
      with ([CallQuery q] ++ reads n ++ tail).
    rewrite !scanned_app, scanned_reads. unfold scanned. simpl.
    induction tail as [|c tail IH]; [simpl; lia|].
    simpl. rewrite (Htail c) by (left; reflexivity).
    apply IH. intros c' Hc'. apply Htail. right. exact Hc'. }
  destruct v; cbn [Update pgStatStatementsQuery].
  - destruct (ReadOnly_cycle_run ctx db)
      as [err Hq | rows before ds cols err rest Hq Hp Hds Herr | rows ds Hq Hds];
      try discriminate.
    intros _. exists rows, ds. cbn [calls ch].
    repeat split; try assumption.
    + apply Hscanned. intros c [<-|[<-|[]]]; reflexivity.
    + apply flat_map_six. apply emitted_six.
  - destruct (ReadReset_cycle_run ctx db)
      as [err Hq | rows before ds cols err rest Hq Hp Hds Herr
          | rows ds err Hq Hds He | rows ds [Hq He] Hds];
      try discriminate.
    intros _. exists rows, ds. cbn [calls ch].
    repeat split; try assumption.
    + apply Hscanned. intros c [<-|[<-|[<-|[]]]]; reflexivity.
    + apply flat_map_six. apply emitted_six.
Qed.

(** C7 (empty-batch law).  When the query returns zero rows, that is, it
    succeeds and its cursor has no row, [Update] sends nothing and returns
    [nil], in both variants. *)
Theorem empty_batch v ctx db rows :
  query_succeeds ctx db (pgStatStatementsQuery v) rows ->
  rows_pending rows = [] ->
  fst (Update v ctx db idle) = None /\ ch (snd (Update v ctx db idle)) = [].
Proof.
  intros Hq Hnone.
  assert (Hds : scans (rows_pending rows) []) by (rewrite Hnone; constructor).
  destruct v; cbn [Update pgStatStatementsQuery] in *.
  - destruct Hq as [Hq Hnil].
    rewrite (ReadOnly_drains _ _ _ _ _ Hq Hds), Hnil. split; reflexivity.
  - rewrite (ReadReset_succeeds _ _ _ _ _ Hq Hds). split; reflexivity.
Qed.

(** C8 (fail-fast law).  When the query execution itself fails, as it does
    under a context that is already done, [Update] returns the error of the
    query, sends nothing and runs no command, in both variants: the
    read-and-reset collector does not reset. *)
Theorem query_failure_aborts_cycle v ctx db err :
  query_outcome ctx db (pgStatStatementsQuery v) = inl err ->
  fst (Update v ctx db idle) = Some err /\
  ch (snd (Update v ctx db idle)) = [] /\
  execs (calls (snd (Update v ctx db idle))) = O.
Proof.
  intros Hq. destruct v; cbn [Update pgStatStatementsQuery] in *.
  - rewrite (ReadOnly_query_fails _ _ _ _ Hq). repeat split.
  - rewrite (ReadReset_query_fails _ _ _ _ Hq). repeat split.
Qed.

Lemma Scan_eight_columns cols :
  List.length cols = 8%nat -> Scan cols = inl (ScanArityError 8 9).
Proof.
  intros H.
  do 9 (destruct cols as [|? cols]; try discriminate).
  reflexivity.
Qed.

(** C9 (the read-only collector fails on any row).  The select list of the
    read-only query has 8 columns and [Scan] is given 9 destinations: when
    the server answers the query with rows of as many columns as the select
    list, and with at least one row, [Update] returns the [Scan] error of
    the first row and has sent nothing; so it returns [nil] only when there
    is no row. *)
Theorem ReadOnly_fails_on_any_row ctx db rows :
  query_outcome ctx db ReadOnly.pgStatStatementsQuery = inr rows ->
  answers ReadOnly.pgStatStatementsQuery rows ->
  List.length (select_list ReadOnly.pgStatStatementsQuery) = 8%nat /\
  (rows_pending rows <> [] ->
   fst (ReadOnly.Update ctx db idle) = Some (ScanArityError 8 9) /\
   is_scan_error (ScanArityError 8 9) = true /\
   ch (snd (ReadOnly.Update ctx db idle)) = []) /\
  (fst (ReadOnly.Update ctx db idle) = None -> rows_pending rows = []).
Proof.
  intros Hq Hwidth.
  assert (Hrow : rows_pending rows <> [] ->
            ReadOnly.Update ctx db idle =
            (Some (ScanArityError 8 9),
             after false
               (CallQuery ReadOnly.pgStatStatementsQuery ::
                reads 0 ++ [CallNext true; CallScan false; CallClose]) [] idle)).
  { intros Hsome. destruct (rows_pending rows) as [|cols rest] eqn:Hp;
      [congruence|].
    unfold answers in Hwidth. rewrite Hp in Hwidth.
    inversion Hwidth as [|? ? Hcols _]; subst.
    apply (ReadOnly_scan_fails ctx db rows [] [] cols _ rest idle Hq Hp).
    - constructor.
    - apply Scan_eight_columns. exact Hcols. }
  split; [reflexivity|]. split.
  - intros Hsome. rewrite (Hrow Hsome). repeat split.
  - intros Hnil. destruct (rows_pending rows) as [|cols rest] eqn:Hp;
      [reflexivity|].
    rewrite Hrow in Hnil by discriminate. discriminate.
Qed.

(** C10 (the reset is unconditional).  On a cycle of the read-and-reset
    collector whose query succeeds and whose rows all scan, exactly one
    command is run, the reset, whether the cursor had rows or none. *)
Theorem reset_issued_once ctx db rows ds :
  query_succeeds ctx db ReadReset.pgStatStatementsQuery rows ->
  scans (rows_pending rows) ds ->
  filter is_exec (calls (snd (ReadReset.Update ctx db idle))) =
    [CallExec ReadReset.pgStatStatementsReset] /\
  execs (calls (snd (ReadReset.Update ctx db idle))) = 1%nat.
Proof.
  intros Hq Hds. rewrite (ReadReset_succeeds _ _ _ _ _ Hq Hds).
  cbn [snd after calls idle app].
  assert (H : filter is_exec
            (CallQuery ReadReset.pgStatStatementsQuery ::
             reads (List.length ds) ++
             [CallNext false; CallClose;
              CallExec ReadReset.pgStatStatementsReset]) =
          [CallExec ReadReset.pgStatStatementsReset]).
  { cbn [filter is_exec]. rewrite filter_app.
    assert (Hr : filter is_exec (reads (List.length ds)) = []).
    { induction (List.length ds) as [|n IH]; [reflexivity | exact IH]. }
    rewrite Hr. reflexivity. }
  split; [exact H|]. unfold execs. now rewrite H.
Qed.

Lemma Scan_error_is_scan_error cols err :
  Scan cols = inl err -> is_scan_error err = true.
Proof.
  unfold Scan, column.
  do 10 (destruct cols as [|? cols]; try (intros [= <-]; reflexivity)).
  repeat match goal with
         | |- context [match ?c with Some _ => _ | None => _ end] =>
             destruct c
         end;
    intros [= <-]; reflexivity.
Qed.

(** The read-only [Update] closes the cursor on every return. *)
Lemma ReadOnly_releases_cursor ctx db :
  cursor_open (snd (ReadOnly.Update ctx db idle)) = false.
Proof. destruct (ReadOnly_cycle_run ctx db); reflexivity. Qed.

(** The read-and-reset [Update] leaves the cursor open on one return only,
    the one that follows a failed [Scan]. *)
Lemma ReadReset_releases_cursor_unless_scan_fails ctx db :
  cursor_open (snd (ReadReset.Update ctx db idle)) = true <->
  In (CallScan false) (calls (snd (ReadReset.Update ctx db idle))).
Proof.
  assert (Hreads : forall n, ~ In (CallScan false) (reads n)).
  { induction n as [|n IH]; simpl; [tauto|].
    intros [K|[K|K]]; try discriminate. exact (IH K). }
  destruct (ReadReset_cycle_run ctx db); cbn [cursor_open calls]; split;
    intros K; try reflexivity; try discriminate K.
  - exfalso. destruct K as [K|[]]. discriminate.
  - right. apply in_or_app. right. right. left. reflexivity.
  - exfalso. destruct K as [K|K]; [discriminate|]. apply in_app_or in K.
    destruct K as [K|[K|[]]]; [exact (Hreads _ K) | discriminate].
  - exfalso. destruct K as [K|K]; [discriminate|]. apply in_app_or in K.
    destruct K as [K|[K|[K|[K|[]]]]]; try discriminate. exact (Hreads _ K).
Qed.

Lemma NullString_Scan_total c : exists s, NullString_Scan c = Some s.
Proof. destruct c; simpl; eexists; reflexivity. Qed.

Lemma NullInt64_Scan_nil c : NullInt64_Scan c = None -> c <> DNil.
Proof. intros H ->. discriminate. Qed.

Lemma NullFloat64_Scan_nil c : NullFloat64_Scan c = None -> c <> DNil.
Proof. intros H ->. discriminate. Qed.

(** [Scan] rejects a row for the number of its columns or for a column that
    is not NULL, never for a NULL. *)
Lemma Scan_rejects_no_null cols err :
  Scan cols = inl err ->
  (List.length cols <> 9%nat /\ err = ScanArityError (List.length cols) 9) \/
  (exists i c, nth_error cols i = Some c /\ c <> DNil /\
               err = ScanColumnError i).
Proof.
  destruct cols as [|c0 [|c1 [|c2 [|c3 [|c4 [|c5 [|c6 [|c7 [|c8 [|c9 rest]]]]]]]]]];
    try (intros [= <-]; left; split; [simpl; lia | reflexivity]).
  intros H. right. unfold Scan, column in H.
  destruct (NullString_Scan_total c0) as [s0 E0]. rewrite E0 in H.
  destruct (NullString_Scan_total c1) as [s1 E1]. rewrite E1 in H.
  destruct (NullString_Scan_total c2) as [s2 E2]. rewrite E2 in H.
  destruct (NullInt64_Scan c3) eqn:E3;
    [|injection H as <-; exists 3%nat, c3;
      repeat split; now apply NullInt64_Scan_nil].
  destruct (NullFloat64_Scan c4) eqn:E4;
    [|injection H as <-; exists 4%nat, c4;
      repeat split; now apply NullFloat64_Scan_nil].
  destruct (NullFloat64_Scan c5) eqn:E5;
    [|injection H as <-; exists 5%nat, c5;
      repeat split; now apply NullFloat64_Scan_nil].
  destruct (NullInt64_Scan c6) eqn:E6;
    [|injection H as <-; exists 6%nat, c6;
      repeat split; now apply NullInt64_Scan_nil].
  destruct (NullFloat64_Scan c7) eqn:E7;
    [|injection H as <-; exists 7%nat, c7;
      repeat split; now apply NullFloat64_Scan_nil].
  destruct (NullFloat64_Scan c8) eqn:E8;
    [|injection H as <-; exists 8%nat, c8;
      repeat split; now apply NullFloat64_Scan_nil].
  discriminate.
Qed.

(** C5 (default-substitution law).  In both variants, an absent label field
    puts the string "unknown" at its place in the labels of the six metrics
    of the row, and an absent numeric field gives its metric the value 0;
    [Scan] rejects a row only for the number of its columns or for a column
    that is not NULL, and decodes the row of nine NULLs. *)
Theorem default_substitution v d :
  (ns_Valid (dst_user d) = false ->
   Forall (fun m => nth_error (labelValues m) 0 = Some "unknown")
     (emitted v d)) /\
  (ns_Valid (dst_datname d) = false ->
   Forall (fun m => nth_error (labelValues m) 1 = Some "unknown")
     (emitted v d)) /\
  (ns_Valid (dst_statement d) = false ->
   Forall (fun m => nth_error (labelValues m) 2 = Some "unknown")
     (emitted v d)) /\
  (ni_Valid (dst_callsTotal d) = false ->
   nth_error (map value (emitted v d)) 0 = Some float64_zero) /\
  (nf_Valid (dst_meanSecondsTotal d) = false ->
   nth_error (map value (emitted v d)) 1 = Some float64_zero) /\
  (nf_Valid (dst_maxSecondsTotal d) = false ->
   nth_error (map value (emitted v d)) 2 = Some float64_zero) /\
  (ni_Valid (dst_rowsTotal d) = false ->
   nth_error (map value (emitted v d)) 3 = Some float64_zero) /\
  (nf_Valid (dst_blockReadSecondsTotal d) = false ->
   nth_error (map value (emitted v d)) 4 = Some float64_zero) /\
  (nf_Valid (dst_blockWriteSecondsTotal d) = false ->
   nth_error (map value (emitted v d)) 5 = Some float64_zero) /\
  float64_is_Z float64_zero 0 = true /\
  (forall cols err,
     Scan cols = inl err ->
     (List.length cols <> 9%nat /\
      err = ScanArityError (List.length cols) 9) \/
     (exists i c, nth_error cols i = Some c /\ c <> DNil /\
                  err = ScanColumnError i)) /\
  Scan null_columns = inr null_destinations.
Proof.
  repeat split;
    try (intros H; destruct v; cbn; rewrite H; repeat constructor);
    try exact Scan_rejects_no_null.
Qed.

(** C6 (identity law), amended.  In both variants, for a row in which every
    field is present, the labels of each of the six metrics are the three
    strings of the row, the four float metrics carry the floats of the row,
    and the two integer metrics carry [float64] of the integers of the row,
    which denotes the integer whenever its absolute value is at most
    2^53. *)
Theorem identity_up_to_float64 v d :
  all_present d = true ->
  map labelValues (emitted v d) =
    repeat [ns_String (dst_user d); ns_String (dst_datname d);
            ns_String (dst_statement d)] 6 /\
  map value (emitted v d) =
    [float64_of_int64 (ni_Int64 (dst_callsTotal d));
     nf_Float64 (dst_meanSecondsTotal d);
     nf_Float64 (dst_maxSecondsTotal d);
     float64_of_int64 (ni_Int64 (dst_rowsTotal d));
     nf_Float64 (dst_blockReadSecondsTotal d);
     nf_Float64 (dst_blockWriteSecondsTotal d)] /\
  (Z.abs (ni_Int64 (dst_callsTotal d)) <= 2 ^ 53 ->
   float64_is_Z (float64_of_int64 (ni_Int64 (dst_callsTotal d)))
     (ni_Int64 (dst_callsTotal d)) = true) /\
  (Z.abs (ni_Int64 (dst_rowsTotal d)) <= 2 ^ 53 ->
   float64_is_Z (float64_of_int64 (ni_Int64 (dst_rowsTotal d)))
     (ni_Int64 (dst_rowsTotal d)) = true).
Proof.
  unfold all_present. intros H.
  repeat (apply andb_prop in H; destruct H as [H ?]).
  repeat split; try apply float64_of_int64_exact.
  - destruct v; cbn;
      repeat match goal with Hv : _ = true |- _ => rewrite Hv; clear Hv end;
      reflexivity.
  - destruct v; cbn;
      repeat match goal with Hv : _ = true |- _ => rewrite Hv; clear Hv end;
      reflexivity.
Qed.

End Claims.

(* ================================================================= *)
(** ** Further properties of the two collectors *)

Section Further.
Context {ext : Externals}.

Lemma filter_reads (p : call -> bool) n :
  p (CallNext true) = false -> p (CallScan true) = false ->
  filter p (reads n) = [].
Proof.
  intros Hnext Hscan. induction n as [|n IH]; [reflexivity|].
  simpl. now rewrite Hnext, Hscan.
Qed.

Lemma filter_cycle (p : call -> bool) q n tail :
  p (CallNext true) = false -> p (CallScan true) = false ->
  filter p (CallQuery q :: reads n ++ tail) =
  filter p [CallQuery q] ++ filter p tail.
Proof.
  intros Hnext Hscan.
  change (CallQuery q :: reads n ++ tail)
    with ([CallQuery q] ++ reads n ++ tail).
  now rewrite !filter_app, (filter_reads p n Hnext Hscan).
Qed.

(** X1.  The read-and-reset [Update] sends all or nothing: whenever it
    returns an error, whichever it is, the channel has received no metric. *)
Theorem ReadReset_error_sends_nothing ctx db :
  fst (ReadReset.Update ctx db idle) <> None ->
  ch (snd (ReadReset.Update ctx db idle)) = [].
Proof.
  destruct (ReadReset_cycle_run ctx db); try reflexivity.
  intros Hbad. exfalso. apply Hbad. reflexivity.
Qed.

(** X2.  The read-only [Update] streams: when the [Scan] of a row fails, the
    metrics of the rows before it, six for each, are already on the channel
    when the error is returned, and the cursor is closed. *)
Theorem ReadOnly_streams_until_scan_fails ctx db rows before ds cols err rest :
  query_outcome ctx db ReadOnly.pgStatStatementsQuery = inr rows ->
  rows_pending rows = before ++ cols :: rest ->
  scans before ds -> Scan cols = inl err ->
  fst (ReadOnly.Update ctx db idle) = Some err /\
  ch (snd (ReadOnly.Update ctx db idle)) =
    flat_map (emitted ReadOnly_variant) ds /\
  List.length (ch (snd (ReadOnly.Update ctx db idle))) =
    (6 * List.length before)%nat /\
  cursor_open (snd (ReadOnly.Update ctx db idle)) = false.
Proof.
  intros Hq Hp Hds Herr.
  rewrite (ReadOnly_scan_fails _ _ _ _ _ _ _ _ _ Hq Hp Hds Herr).
  cbn [fst snd after ch cursor_open idle app].
  repeat split.
  rewrite <- (scans_length _ _ Hds).
  apply flat_map_six. intros d. apply (emitted_six ReadOnly_variant).
Qed.

(** X3.  When every row scans and the iteration then ends with an error,
    both collectors return that error with the cursor closed; the read-only
    one has sent the metrics of every row, the read-and-reset one has sent
    nothing and has not reset. *)
Theorem iteration_error_after_rows v ctx db rows ds err :
  query_outcome ctx db (pgStatStatementsQuery v) = inr rows ->
  scans (rows_pending rows) ds ->
  rows_Err rows = Some err ->
  fst (Update v ctx db idle) = Some err /\
  ch (snd (Update v ctx db idle)) =
    match v with
    | ReadOnly_variant => flat_map (emitted ReadOnly_variant) ds
    | ReadReset_variant => []
    end /\
  execs (calls (snd (Update v ctx db idle))) = O /\
  cursor_open (snd (Update v ctx db idle)) = false.
Proof.
  intros Hq Hds Herr. destruct v; cbn [Update pgStatStatementsQuery] in *.
  - rewrite (ReadOnly_drains _ _ _ _ _ Hq Hds), Herr.
    cbn [fst snd after ch calls cursor_open idle app].
    repeat split. unfold execs. now rewrite filter_cycle.
  - rewrite (ReadReset_iteration_fails _ _ _ _ _ _ Hq Hds Herr).
    cbn [fst snd after ch calls cursor_open idle app].
    repeat split. unfold execs. now rewrite filter_cycle.
Qed.

(** X4.  [Update] returns [nil] exactly when the query succeeds and every
    row of its cursor scans, in both variants. *)
Theorem Update_succeeds_iff v ctx db :
  fst (Update v ctx db idle) = None <->
  exists rows ds,
    query_succeeds ctx db (pgStatStatementsQuery v) rows /\
    scans (rows_pending rows) ds.
Proof.
  split.
  - destruct v; cbn [Update pgStatStatementsQuery].
    + destruct (ReadOnly_cycle_run ctx db)
        as [err Hq | rows before ds cols err rest Hq Hp Hds Herr
            | rows ds Hq Hds]; try discriminate.
      intros Hnil. exists rows, ds. repeat split; assumption.
    + destruct (ReadReset_cycle_run ctx db)
        as [err Hq | rows before ds cols err rest Hq Hp Hds Herr
            | rows ds err Hq Hds He | rows ds Hq Hds]; try discriminate.
      intros _. exists rows, ds. split; assumption.
  - intros (rows & ds & Hq & Hds).
    destruct v; cbn [Update pgStatStatementsQuery] in *.
    + destruct Hq as [Hq Hnil].
      now rewrite (ReadOnly_drains _ _ _ _ _ Hq Hds), Hnil.
    + now rewrite (ReadReset_succeeds _ _ _ _ _ Hq Hds).
Qed.

(** X5.  The error that [Update] returns is the error of the query, or the
    error of the [Scan] of one of the rows, or the error that ended the
    iteration; no other error is ever returned, in either variant. *)
Theorem Update_error_provenance v ctx db err :
  fst (Update v ctx db idle) = Some err ->
  query_outcome ctx db (pgStatStatementsQuery v) = inl err \/
  exists rows,
    query_outcome ctx db (pgStatStatementsQuery v) = inr rows /\
    ((exists cols, In cols (rows_pending rows) /\ Scan cols = inl err /\
                   is_scan_error err = true) \/
     rows_Err rows = Some err).
Proof.
  destruct v; cbn [Update pgStatStatementsQuery].
  - destruct (ReadOnly_cycle_run ctx db)
      as [e Hq | rows before ds cols e rest Hq Hp Hds Herr | rows ds Hq Hds];
      cbn [fst].
    + intros [= <-]. left. exact Hq.
    + intros [= <-]. right. exists rows. split; [exact Hq|]. left.
      exists cols. rewrite Hp. repeat split.
      * apply in_or_app. right. left. reflexivity.
      * exact Herr.
      * exact (Scan_error_is_scan_error _ _ Herr).
    + intros He. right. exists rows. split; [exact Hq|]. right. exact He.
  - destruct (ReadReset_cycle_run ctx db)
      as [e Hq | rows before ds cols e rest Hq Hp Hds Herr
          | rows ds e Hq Hds He | rows ds Hq Hds]; cbn [fst]; try discriminate.
    + intros [= <-]. left. exact Hq.
    + intros [= <-]. right. exists rows. split; [exact Hq|]. left.
      exists cols. rewrite Hp. repeat split.
      * apply in_or_app. right. left. reflexivity.
      * exact Herr.
      * exact (Scan_error_is_scan_error _ _ Herr).
    + intros [= <-]. right. exists rows. split; [exact Hq|]. right. exact He.
Qed.

(** X6.  The two collectors turn a decoded row into the same six
    observations: the same values, label values, value types, metric names
    and help texts, in the same order; only the name of the third label
    differs, [queryid] against [query]. *)
Theorem variants_emit_alike d :
  map value (emitted ReadOnly_variant d) =
    map value (emitted ReadReset_variant d) /\
  map labelValues (emitted ReadOnly_variant d) =
    map labelValues (emitted ReadReset_variant d) /\
  map valueType (emitted ReadOnly_variant d) =
    map valueType (emitted ReadReset_variant d) /\
  map (fun m => fqName (desc m)) (emitted ReadOnly_variant d) =
    map (fun m => fqName (desc m)) (emitted ReadReset_variant d) /\
  map (fun m => help (desc m)) (emitted ReadOnly_variant d) =
    map (fun m => help (desc m)) (emitted ReadReset_variant d) /\
  map (fun m => variableLabels (desc m)) (emitted ReadOnly_variant d) =
    repeat ["user"; "datname"; "queryid"] 6 /\
  map (fun m => variableLabels (desc m)) (emitted ReadReset_variant d) =
    repeat ["user"; "datname"; "query"] 6.
Proof. repeat split. Qed.

Lemma emitted_well_formed v d m :
  In m (emitted v d) ->
  valueType m = CounterValue /\
  List.length (labelValues m) = 3%nat /\
  List.length (labelValues m) = List.length (variableLabels (desc m)) /\
  constLabels (desc m) = [] /\
  In (desc m) (descriptors v).
Proof.
  destruct v; cbn [emitted descriptors]; intros Hin;
    repeat (destruct Hin as [<- | Hin];
            [repeat split; cbn; tauto|]);
    destruct Hin.
Qed.

Lemma sent_by_cycle v ctx db m :
  In m (ch (snd (Update v ctx db idle))) -> exists d, In m (emitted v d).
Proof.
  destruct v; cbn [Update].
  - destruct (ReadOnly_cycle_run ctx db); cbn [ch]; intros Hin;
      try destruct Hin;
      apply in_flat_map in Hin; destruct Hin as (d & _ & Hin);
      exists d; exact Hin.
  - destruct (ReadReset_cycle_run ctx db); cbn [ch]; intros Hin;
      try destruct Hin;
      apply in_flat_map in Hin; destruct Hin as (d & _ & Hin);
      exists d; exact Hin.
Qed.

(** X7.  Every metric that a cycle sends, in either variant and on any
    input, is a counter built on one of the six descriptors of the
    collector, with no constant label and with exactly three label values,
    as many as the descriptor has variable labels. *)
Theorem sent_metrics_well_formed v ctx db m :
  In m (ch (snd (Update v ctx db idle))) ->
  valueType m = CounterValue /\
  List.length (labelValues m) = 3%nat /\
  List.length (labelValues m) = List.length (variableLabels (desc m)) /\
  constLabels (desc m) = [] /\
  In (desc m) (descriptors v).
Proof.
  intros Hin. destruct (sent_by_cycle _ _ _ _ Hin) as [d Hd].
  exact (emitted_well_formed _ _ _ Hd).
Qed.

Lemma append_cancel_l (p a b : string) :
  (p ++ a)%string = (p ++ b)%string -> a = b.
Proof.
  induction p as [|c p IH]; simpl; [tauto|].
  intros [= H]. exact (IH H).
Qed.

Lemma NoDup_map_append (p : string) (l : list string) :
  NoDup l -> NoDup (map (String.append p) l).
Proof.
  intros H. induction H as [|a l Hnotin _ IH]; simpl; constructor.
  - intros Hin. apply in_map_iff in Hin. destruct Hin as (b & Heq & Hb).
    apply append_cancel_l in Heq. subst b. exact (Hnotin Hb).
  - exact IH.
Qed.

(** X8.  Whatever the namespace is, the six descriptors of a collector have
    six different fully-qualified names, each the namespace prefix followed
    by [stat_statements_] and the name of the counter; the two collectors
    use the same six names. *)
Theorem descriptor_names_distinct v :
  NoDup (map fqName (descriptors v)) /\
  map fqName (descriptors v) =
    map (String.append (if nonempty namespace
                        then (namespace ++ "_")%string else ""))
      [ "stat_statements_calls_total";
        "stat_statements_mean_seconds_total";
        "stat_statements_max_seconds_total";
        "stat_statements_rows_total";
        "stat_statements_block_read_seconds_total";
        "stat_statements_block_write_seconds_total" ] /\
  map fqName (descriptors ReadOnly_variant) =
    map fqName (descriptors ReadReset_variant).
Proof.
  assert (Hnames :
    map fqName (descriptors v) =
    map (String.append (if nonempty namespace
                        then (namespace ++ "_")%string else ""))
      [ "stat_statements_calls_total";
        "stat_statements_mean_seconds_total";
        "stat_statements_max_seconds_total";
        "stat_statements_rows_total";
        "stat_statements_block_read_seconds_total";
        "stat_statements_block_write_seconds_total" ])
    by (destruct v; reflexivity).
  split; [|split; [exact Hnames | reflexivity]].
  rewrite Hnames. apply NoDup_map_append.
  repeat constructor; simpl; intuition discriminate.
Qed.

(** X9.  An absent field cannot be told from a present field that holds the
    default: replacing every absent field of a row by the text "unknown",
    the integer 0 or the float 0.0 leaves the six metrics of the row as
    they are, in both variants. *)
Theorem null_indistinguishable_from_default v d :
  all_present (defaulted d) = true /\
  emitted v (defaulted d) = emitted v d.
Proof.
  destruct d as [[u uv] [n nv] [s sv] [c cv] [m mv] [x xv] [r rv] [br brv]
                   [bw bwv]].
  destruct uv, nv, sv, cv, mv, xv, rv, brv, bwv, v; split; reflexivity.
Qed.

Lemma Scan_wire v r :
  exists d,
    Scan (wire r) = inr d /\
    map labelValues (emitted v d) =
      repeat [label_of (tr_user r); label_of (tr_datname r);
              label_of (tr_statement r)] 6 /\
    map value (emitted v d) =
      [counter_of_bigint (tr_calls r); counter_of_double (tr_mean r);
       counter_of_double (tr_max r); counter_of_bigint (tr_rows r);
       counter_of_double (tr_block_read r);
       counter_of_double (tr_block_write r)].
Proof.
  destruct r as [u n s c m x w br bw].
  destruct u, n, s, c, m, x, w, br, bw, v;
    (eexists; split; [reflexivity | split; reflexivity]).
Qed.

Lemma scans_wire v rs :
  exists ds,
    scans (map wire rs) ds /\
    map labelValues (flat_map (emitted v) ds) =
      flat_map (fun r => repeat [label_of (tr_user r);
                                 label_of (tr_datname r);
                                 label_of (tr_statement r)] 6) rs /\
    map value (flat_map (emitted v) ds) =
      flat_map (fun r => [counter_of_bigint (tr_calls r);
                          counter_of_double (tr_mean r);
                          counter_of_double (tr_max r);
                          counter_of_bigint (tr_rows r);
                          counter_of_double (tr_block_read r);
                          counter_of_double (tr_block_write r)]) rs.
Proof.
  induction rs as [|r rs (ds & Hds & Hlabels & Hvalues)].
  - exists []. repeat split. constructor.
  - destruct (Scan_wire v r) as (d & Hd & Hl & Hv).
    exists (d :: ds). split; [constructor; assumption|].
    cbn [flat_map]. rewrite !map_app, Hl, Hv, Hlabels, Hvalues.
    split; reflexivity.
Qed.

(** X10.  From the wire to the channel.  When the server answers the
    read-and-reset query with rows of the types of the select list (text,
    text, text, bigint, double, double, bigint, double, double, each
    possibly NULL) and the iteration ends without an error, [Update] returns
    [nil], has reset once, and has sent for each row, in order, six metrics
    labelled with the three texts ("unknown" for NULL) that carry [calls],
    mean, max, [rows], block read and block write (0 for NULL). *)
Theorem ReadReset_typed_rows ctx db rs :
  query_outcome ctx db ReadReset.pgStatStatementsQuery =
    inr {| rows_pending := map wire rs; rows_Err := None |} ->
  answers ReadReset.pgStatStatementsQuery
    {| rows_pending := map wire rs; rows_Err := None |} /\
  fst (ReadReset.Update ctx db idle) = None /\
  map labelValues (ch (snd (ReadReset.Update ctx db idle))) =
    flat_map (fun r => repeat [label_of (tr_user r);
                               label_of (tr_datname r);
                               label_of (tr_statement r)] 6) rs /\
  map value (ch (snd (ReadReset.Update ctx db idle))) =
    flat_map (fun r => [counter_of_bigint (tr_calls r);
                        counter_of_double (tr_mean r);
                        counter_of_double (tr_max r);
                        counter_of_bigint (tr_rows r);
                        counter_of_double (tr_block_read r);
                        counter_of_double (tr_block_write r)]) rs /\
  execs (calls (snd (ReadReset.Update ctx db idle))) = 1%nat.
Proof.
  intros Hq.
  destruct (scans_wire ReadReset_variant rs) as (ds & Hds & Hlabels & Hvalues).
  assert (Hok : query_succeeds ctx db ReadReset.pgStatStatementsQuery
                  {| rows_pending := map wire rs; rows_Err := None |})
    by (split; [exact Hq | reflexivity]).
  rewrite (ReadReset_succeeds _ _ _ _ _ Hok Hds).
  cbn [fst snd after ch calls idle app].
  split; [|repeat split; try assumption].
  - unfold answers. cbn [rows_pending]. apply Forall_forall.
    intros cols Hin. apply in_map_iff in Hin.
    destruct Hin as (r & <- & _). reflexivity.
  - unfold execs. now rewrite filter_cycle.
Qed.

Lemma Scan_nine_columns cols err :
  List.length cols = 9%nat -> Scan cols = inl err ->
  exists i, (3 <= i <= 8)%nat /\ err = ScanColumnError i.
Proof.
  intros Hlen H.
  destruct (Scan_rejects_no_null _ _ H) as [[Hbad _]|(i & c & Hnth & _ & ->)];
    [contradiction|].
  exists i. split; [|reflexivity].
  destruct cols as [|c0 [|c1 [|c2 [|c3 [|c4 [|c5 [|c6 [|c7 [|c8 [|c9 rest]]]]]]]]]];
    try discriminate.
  unfold Scan, column in H.
  destruct (NullString_Scan_total c0) as [s0 E0]. rewrite E0 in H.
  destruct (NullString_Scan_total c1) as [s1 E1]. rewrite E1 in H.
  destruct (NullString_Scan_total c2) as [s2 E2]. rewrite E2 in H.
  repeat match type of H with
         | context [match ?c with Some _ => _ | None => _ end] =>
             destruct c; [|injection H as H; lia]
         end.
  discriminate.
Qed.

(** X11.  When the server answers the read-and-reset query with rows of as
    many columns as its select list, a failed [Scan] can only be a failed
    conversion of one of the six numeric columns, 3 to 8: the error that
    [Update] returns names that column, never a label column nor the number
    of columns. *)
Theorem ReadReset_scan_error_is_numeric ctx db rows :
  query_outcome ctx db ReadReset.pgStatStatementsQuery = inr rows ->
  answers ReadReset.pgStatStatementsQuery rows ->
  In (CallScan false) (calls (snd (ReadReset.Update ctx db idle))) ->
  exists i, (3 <= i <= 8)%nat /\
            fst (ReadReset.Update ctx db idle) = Some (ScanColumnError i).
Proof.
  intros Hq Hwidth Hfailed.
  apply ReadReset_releases_cursor_unless_scan_fails in Hfailed.
  destruct (ReadReset_cycle_run ctx db)
    as [e Hq' | rows' before ds cols e rest Hq' Hp Hds Herr
        | rows' ds e Hq' Hds He | rows' ds Hq' Hds]; try discriminate.
  rewrite Hq in Hq'. injection Hq' as <-.
  unfold answers in Hwidth. rewrite Hp in Hwidth.
  apply Forall_app in Hwidth. destruct Hwidth as [_ Hwidth].
  inversion Hwidth as [|? ? Hcols _]; subst.
  destruct (Scan_nine_columns cols e Hcols Herr) as (i & Hi & ->).
  exists i. split; [exact Hi | reflexivity].
Qed.

(** X12.  A cycle only appends: started with calls and metrics already
    recorded, [Update] returns what it returns on a fresh start, and leaves
    the earlier calls and metrics in place, followed by those of the fresh
    start. *)
Theorem Update_frame v ctx db w :
  fst (Update v ctx db w) = fst (Update v ctx db idle) /\
  calls (snd (Update v ctx db w)) =
    calls w ++ calls (snd (Update v ctx db idle)) /\
  ch (snd (Update v ctx db w)) = ch w ++ ch (snd (Update v ctx db idle)).
Proof.
  destruct v; cbn [Update].
  - destruct (query_outcome ctx db ReadOnly.pgStatStatementsQuery)
      as [err|rows] eqn:Hq.
    + rewrite !(ReadOnly_query_fails _ _ _ _ Hq). repeat split.
    + destruct (scans_or_fails (rows_pending rows))
        as [[ds Hds]|(before & ds & cols & err & rest & Hp & Hds & Herr)].
      * rewrite !(ReadOnly_drains _ _ _ _ _ Hq Hds). repeat split.
      * rewrite !(ReadOnly_scan_fails _ _ _ _ _ _ _ _ _ Hq Hp Hds Herr).
        repeat split.
  - destruct (query_outcome ctx db ReadReset.pgStatStatementsQuery)
      as [err|rows] eqn:Hq.
    + rewrite !(ReadReset_query_fails _ _ _ _ Hq). repeat split.
    + destruct (scans_or_fails (rows_pending rows))
        as [[ds Hds]|(before & ds & cols & err & rest & Hp & Hds & Herr)].
      * destruct (rows_Err rows) as [err|] eqn:He.
        -- rewrite !(ReadReset_iteration_fails _ _ _ _ _ _ Hq Hds He).
           repeat split.
        -- rewrite !(ReadReset_succeeds _ _ _ _ _ (conj Hq He) Hds).
           repeat split.
      * rewrite !(ReadReset_scan_fails _ _ _ _ _ _ _ _ _ Hq Hp Hds Herr).
        repeat split.
Qed.

(** X13.  The read-only [Update] never runs a command on the handle, and
    calls [Close] exactly once when the query has returned a cursor, whatever
    happens next, and not at all when the query has failed. *)
Theorem ReadOnly_closes_once_and_runs_no_command ctx db :
  execs (calls (snd (ReadOnly.Update ctx db idle))) = O /\
  filter is_close (calls (snd (ReadOnly.Update ctx db idle))) =
    match query_outcome ctx db ReadOnly.pgStatStatementsQuery with
    | inl _ => []
    | inr _ => [CallClose]
    end.
Proof.
  unfold execs.
  destruct (ReadOnly_cycle_run ctx db)
    as [err Hq | rows before ds cols err rest Hq Hp Hds Herr | rows ds Hq Hds];
    rewrite Hq; cbn [calls]; try (split; reflexivity);
    rewrite !filter_cycle; split; reflexivity.
Qed.

(** X14.  A cycle runs one query, its own, as its first call, in both
    variants and on every path. *)
Theorem one_query_per_cycle v ctx db :
  filter is_query (calls (snd (Update v ctx db idle))) =
    [CallQuery (pgStatStatementsQuery v)] /\
  hd_error (calls (snd (Update v ctx db idle))) =
    Some (CallQuery (pgStatStatementsQuery v)).
Proof.
  destruct v; cbn [Update pgStatStatementsQuery].
  - destruct (ReadOnly_cycle_run ctx db); cbn [calls hd_error];
      try (split; reflexivity); rewrite filter_cycle; split; reflexivity.
  - destruct (ReadReset_cycle_run ctx db); cbn [calls hd_error];
      try (split; reflexivity); rewrite filter_cycle; split; reflexivity.
Qed.

(** X15.  The read-and-reset [Update] calls [Close] on the cycles that
    return [nil], once, and on no other: on an error return it has not
    called [Close], and the cursor is closed only if [Next] has ended the
    iteration. *)
Theorem ReadReset_closes_iff_succeeds ctx db :
  filter is_close (calls (snd (ReadReset.Update ctx db idle))) =
    match fst (ReadReset.Update ctx db idle) with
    | None => [CallClose]
    | Some _ => []
    end /\
  (fst (ReadReset.Update ctx db idle) <> None ->
   cursor_open (snd (ReadReset.Update ctx db idle)) = false ->
   In (CallNext false) (calls (snd (ReadReset.Update ctx db idle))) \/
   exists err,
     query_outcome ctx db ReadReset.pgStatStatementsQuery = inl err).
Proof.
  destruct (ReadReset_cycle_run ctx db)
    as [err Hq | rows before ds cols err rest Hq Hp Hds Herr
        | rows ds err Hq Hds He | rows ds Hq Hds];
    cbn [fst calls cursor_open].
  - split; [reflexivity|]. intros _ _. right. exists err. exact Hq.
  - rewrite filter_cycle by reflexivity. split; [reflexivity|].
    intros _ Hopen. discriminate.
  - rewrite filter_cycle by reflexivity. split; [reflexivity|].
    intros _ _. left. right. apply in_or_app. right. left. reflexivity.
  - rewrite filter_cycle by reflexivity. split; [reflexivity|].
    intros Hbad. exfalso. apply Hbad. reflexivity.
Qed.

End Further.

(* ================================================================= *)
(** ** The properties at sample inputs *)

#[local] Existing Instance sample_externals.

Lemma sample_floats_are_binary64 :
  forallb (valid_binary float64_prec float64_emax) [f_0_01; f_0_02; f_0_001]
  = true.
Proof. reflexivity. Qed.

(** The spec's example scenario with a reset that the server refuses. *)
Lemma reset_failure_isolation_witness :
  query_succeeds background
    (server [sample_columns] None (Some reset_refused))
    ReadReset.pgStatStatementsQuery one_row /\
  scans (rows_pending one_row) [sample_destinations] /\
  fst (ReadReset.Update background
         (server [sample_columns] None (Some reset_refused)) idle) = None /\
  map value
    (ch (snd (ReadReset.Update background
                (server [sample_columns] None (Some reset_refused)) idle))) =
    [float64_of_int64 42; f_0_01; f_0_02; float64_of_int64 1; f_0_001;
     float64_zero].
Proof.
  assert (Hq : query_succeeds background
                 (server [sample_columns] None (Some reset_refused))
                 ReadReset.pgStatStatementsQuery one_row)
    by (split; reflexivity).
  assert (Hds : scans (rows_pending one_row) [sample_destinations])
    by (repeat constructor).
  destruct (reset_failure_isolation background
              (server [sample_columns] None (Some reset_refused))
              one_row [sample_destinations] reset_refused Hq Hds eq_refl)
    as (_ & Hnil & Hch & _).
  split; [exact Hq|]. split; [exact Hds|]. split; [exact Hnil|].
  rewrite Hch. reflexivity.
Defined.

Lemma reset_after_read_and_close_witness :
  calls (snd (ReadReset.Update background
                (server [sample_columns] None None) idle)) =
    [CallQuery ReadReset.pgStatStatementsQuery; CallNext true; CallScan true;
     CallNext false; CallClose] ++
    CallExec ReadReset.pgStatStatementsReset :: [] /\
  scanned [CallQuery ReadReset.pgStatStatementsQuery; CallNext true;
           CallScan true; CallNext false; CallClose] = 1%nat /\
  execs (calls (snd (ReadReset.Update canceled
                       (server [sample_columns] None None) idle))) = O /\
  execs (calls (snd (ReadReset.Update background
                       (server [undecodable_columns] None None) idle))) = O.
Proof.
  assert (Hcalls :
    calls (snd (ReadReset.Update background
                  (server [sample_columns] None None) idle)) =
    [CallQuery ReadReset.pgStatStatementsQuery; CallNext true; CallScan true;
     CallNext false; CallClose] ++
    CallExec ReadReset.pgStatStatementsReset :: []) by reflexivity.
  destruct (reset_after_read_and_close background
              (server [sample_columns] None None)) as (Hshape & _).
  destruct (Hshape _ _ _ Hcalls) as (rows & _ & _ & _ & Hn & _).
  destruct (reset_after_read_and_close canceled
              (server [sample_columns] None None)) as (_ & Hquery & _).
  destruct (reset_after_read_and_close background
              (server [undecodable_columns] None None)) as (_ & _ & Hscan & _).
  split; [exact Hcalls|]. split; [reflexivity|].
  split.
  - exact (Hquery ContextError eq_refl).
  - apply Hscan. right. right. left. reflexivity.
Defined.

Lemma six_observations_per_row_witness :
  fst (Update ReadReset_variant background
         (server [sample_columns; null_columns] None None) idle) = None /\
  List.length
    (ch (snd (Update ReadReset_variant background
                (server [sample_columns; null_columns] None None) idle))) =
    12%nat /\
  fst (Update ReadOnly_variant background
         (server [sample_columns; null_columns] None None) idle) = None /\
  List.length
    (ch (snd (Update ReadOnly_variant background
                (server [sample_columns; null_columns] None None) idle))) =
    12%nat.
Proof.
  destruct (six_observations_per_row ReadReset_variant background
              (server [sample_columns; null_columns] None None) eq_refl)
    as (rows & ds & Hq & Hds & _ & _ & Hlen).
  destruct (six_observations_per_row ReadOnly_variant background
              (server [sample_columns; null_columns] None None) eq_refl)
    as (rows' & ds' & Hq' & Hds' & _ & _ & Hlen').
  injection Hq as <-. injection Hq' as <-.
  apply scans_length in Hds. apply scans_length in Hds'.
  simpl in Hds, Hds'. rewrite Hds in Hlen. rewrite Hds' in Hlen'.
  split; [reflexivity|]. split; [exact Hlen|].
  split; [reflexivity|exact Hlen'].
Defined.

Lemma default_substitution_witness :
  Forall (fun m => labelValues m = ["unknown"; "unknown"; "unknown"])
    (emitted ReadReset_variant null_destinations) /\
  map value (emitted ReadReset_variant null_destinations) =
    repeat float64_zero 6 /\
  nth_error (map value (emitted ReadOnly_variant sample_destinations)) 5 =
    Some float64_zero /\
  Scan null_columns = inr null_destinations.
Proof.
  destruct (default_substitution ReadReset_variant null_destinations)
    as (_ & _ & _ & _ & _ & _ & _ & _ & _ & _ & _ & Hscan).
  destruct (default_substitution ReadOnly_variant sample_destinations)
    as (_ & _ & _ & _ & _ & _ & _ & _ & Hwrite & _).
  split; [repeat constructor|]. split; [reflexivity|].
  split; [exact (Hwrite eq_refl) | exact Hscan].
Defined.

(** C6 as stated fails: with every field present and 2^53 + 1 calls, the
    first metric of the row carries 2^52 * 2 = 2^53, in both variants. *)
Lemma identity_law_fails_above_2_53 :
  all_present large_destinations = true /\
  ni_Int64 (dst_callsTotal large_destinations) = 2 ^ 53 + 1 /\
  nth_error (map value (emitted ReadOnly_variant large_destinations)) 0 =
    Some (S754_finite false 4503599627370496 1) /\
  nth_error (map value (emitted ReadReset_variant large_destinations)) 0 =
    Some (S754_finite false 4503599627370496 1) /\
  float64_is_Z (S754_finite false 4503599627370496 1) (2 ^ 53 + 1) = false /\
  float64_is_Z (S754_finite false 4503599627370496 1) (2 ^ 53) = true.
Proof. repeat split; vm_compute; reflexivity. Qed.

Lemma identity_up_to_float64_witness :
  all_present large_destinations = true /\
  map labelValues (emitted ReadReset_variant large_destinations) =
    repeat ["app"; "prod"; "SELECT 1"] 6 /\
  map value (emitted ReadReset_variant large_destinations) =
    [float64_of_int64 9007199254740993; f_0_01; f_0_02; float64_of_int64 1;
     f_0_001; f_0_001] /\
  float64_is_Z (float64_of_int64 1) 1 = true.
Proof.
  destruct (identity_up_to_float64 ReadReset_variant large_destinations
              eq_refl) as (Hlabels & Hvalues & _ & Hrows).
  split; [reflexivity|]. split; [exact Hlabels|]. split; [exact Hvalues|].
  apply Hrows. vm_compute. discriminate.
Defined.

Lemma empty_batch_witness :
  query_succeeds background (server [] None None)
    (pgStatStatementsQuery ReadOnly_variant) no_row /\
  fst (Update ReadOnly_variant background (server [] None None) idle) = None /\
  ch (snd (Update ReadOnly_variant background (server [] None None) idle)) =
    [] /\
  fst (Update ReadReset_variant background (server [] None None) idle) =
    None /\
  ch (snd (Update ReadReset_variant background (server [] None None) idle)) =
    [].
Proof.
  assert (Hq : forall v, query_succeeds background (server [] None None)
                           (pgStatStatementsQuery v) no_row)
    by (intros v; split; reflexivity).
  destruct (empty_batch ReadOnly_variant background (server [] None None)
              no_row (Hq ReadOnly_variant) eq_refl) as (Hnil & Hch).
  destruct (empty_batch ReadReset_variant background (server [] None None)
              no_row (Hq ReadReset_variant) eq_refl) as (Hnil' & Hch').
  split; [exact (Hq ReadOnly_variant)|].
  split; [exact Hnil|]. split; [exact Hch|].
  split; [exact Hnil'|exact Hch'].
Defined.

Lemma query_failure_aborts_cycle_witness :
  query_outcome canceled (server [sample_columns] None None)
    (pgStatStatementsQuery ReadReset_variant) = inl ContextError /\
  fst (Update ReadReset_variant canceled
         (server [sample_columns] None None) idle) = Some ContextError /\
  ch (snd (Update ReadReset_variant canceled
             (server [sample_columns] None None) idle)) = [] /\
  execs (calls (snd (Update ReadReset_variant canceled
                       (server [sample_columns] None None) idle))) = O /\
  fst (Update ReadOnly_variant background no_extension idle) =
    Some (DriverError "relation pg_stat_statements does not exist") /\
  ch (snd (Update ReadOnly_variant background no_extension idle)) = [].
Proof.
  destruct (query_failure_aborts_cycle ReadReset_variant canceled
              (server [sample_columns] None None) ContextError eq_refl)
    as (Herr & Hch & Hexecs).
  destruct (query_failure_aborts_cycle ReadOnly_variant background
              no_extension
              (DriverError "relation pg_stat_statements does not exist")
              eq_refl) as (Herr' & Hch' & _).
  split; [reflexivity|]. split; [exact Herr|]. split; [exact Hch|].
  split; [exact Hexecs|]. split; [exact Herr'|exact Hch'].
Defined.

Lemma ReadOnly_fails_on_any_row_witness :
  answers ReadOnly.pgStatStatementsQuery
    {| rows_pending := [eight_columns]; rows_Err := None |} /\
  fst (ReadOnly.Update background (server [eight_columns] None None) idle) =
    Some (ScanArityError 8 9) /\
  ch (snd (ReadOnly.Update background (server [eight_columns] None None)
             idle)) = [].
Proof.
  assert (Hwidth : answers ReadOnly.pgStatStatementsQuery
                     {| rows_pending := [eight_columns]; rows_Err := None |})
    by (repeat constructor).
  destruct (ReadOnly_fails_on_any_row background
              (server [eight_columns] None None)
              {| rows_pending := [eight_columns]; rows_Err := None |}
              eq_refl Hwidth) as (_ & Hrow & _).
  destruct Hrow as (Herr & _ & Hch); [discriminate|].
  split; [exact Hwidth|]. split; [exact Herr|exact Hch].
Defined.

Lemma reset_issued_once_witness :
  query_succeeds background (server [] None None)
    ReadReset.pgStatStatementsQuery no_row /\
  scans (rows_pending no_row) [] /\
  filter is_exec
    (calls (snd (ReadReset.Update background (server [] None None) idle))) =
    [CallExec ReadReset.pgStatStatementsReset].
Proof.
  assert (Hq : query_succeeds background (server [] None None)
                 ReadReset.pgStatStatementsQuery no_row)
    by (split; reflexivity).
  assert (Hds : scans (rows_pending no_row) []) by constructor.
  destruct (reset_issued_once background (server [] None None) no_row []
              Hq Hds) as (Hreset & _).
  split; [exact Hq|]. split; [exact Hds|exact Hreset].
Defined.

(* ================================================================= *)
(** ** The further properties at sample inputs *)

Lemma ReadReset_error_sends_nothing_witness :
  fst (ReadReset.Update background
         (server [sample_columns] (Some connection_lost) None) idle) =
    Some connection_lost /\
  ch (snd (ReadReset.Update background
             (server [sample_columns] (Some connection_lost) None) idle)) = [].
Proof.
  split; [reflexivity|].
  apply (ReadReset_error_sends_nothing background
           (server [sample_columns] (Some connection_lost) None)).
  discriminate.
Defined.

Lemma ReadOnly_streams_until_scan_fails_witness :
  scans [sample_columns] [sample_destinations] /\
  Scan undecodable_columns = inl (ScanColumnError 3) /\
  fst (ReadOnly.Update background
         (server [sample_columns; undecodable_columns] None None) idle) =
    Some (ScanColumnError 3) /\
  ch (snd (ReadOnly.Update background
             (server [sample_columns; undecodable_columns] None None) idle)) =
    emitted ReadOnly_variant sample_destinations /\
  ch (snd (ReadReset.Update background
             (server [sample_columns; undecodable_columns] None None) idle)) =
    [].
Proof.
  assert (Hds : scans [sample_columns] [sample_destinations])
    by (repeat constructor).
  destruct (ReadOnly_streams_until_scan_fails background
              (server [sample_columns; undecodable_columns] None None)
              {| rows_pending := [sample_columns; undecodable_columns];
                 rows_Err := None |}
              [sample_columns] [sample_destinations] undecodable_columns
              (ScanColumnError 3) [] eq_refl eq_refl Hds eq_refl)
    as (Herr & Hch & _ & _).
  split; [exact Hds|]. split; [reflexivity|]. split; [exact Herr|].
  split; [|reflexivity]. rewrite Hch. reflexivity.
Defined.

Lemma iteration_error_after_rows_witness :
  fst (Update ReadOnly_variant background
         (server [sample_columns] (Some connection_lost) None) idle) =
    Some connection_lost /\
  ch (snd (Update ReadOnly_variant background
             (server [sample_columns] (Some connection_lost) None) idle)) =
    emitted ReadOnly_variant sample_destinations /\
  ch (snd (Update ReadReset_variant background
             (server [sample_columns] (Some connection_lost) None) idle)) =
    [].
Proof.
  assert (Hds : scans [sample_columns] [sample_destinations])
    by (repeat constructor).
  destruct (iteration_error_after_rows ReadOnly_variant background
              (server [sample_columns] (Some connection_lost) None)
              {| rows_pending := [sample_columns];
                 rows_Err := Some connection_lost |}
              [sample_destinations] connection_lost eq_refl Hds eq_refl)
    as (Herr & Hch & _ & _).
  destruct (iteration_error_after_rows ReadReset_variant background
              (server [sample_columns] (Some connection_lost) None)
              {| rows_pending := [sample_columns];
                 rows_Err := Some connection_lost |}
              [sample_destinations] connection_lost eq_refl Hds eq_refl)
    as (_ & Hch' & _ & _).
  split; [exact Herr|]. split; [|exact Hch'].
  rewrite Hch. reflexivity.
Defined.

Lemma Update_succeeds_iff_witness :
  fst (Update ReadReset_variant background
         (server [sample_columns] None (Some reset_refused)) idle) = None /\
  exists rows ds,
    query_succeeds background (server [] None None)
      (pgStatStatementsQuery ReadOnly_variant) rows /\
    scans (rows_pending rows) ds.
Proof.
  split.
  - apply (Update_succeeds_iff ReadReset_variant background
             (server [sample_columns] None (Some reset_refused))).
    exists one_row, [sample_destinations].
    split; [split; reflexivity | repeat constructor].
  - apply (Update_succeeds_iff ReadOnly_variant background
             (server [] None None)).
    reflexivity.
Defined.

Lemma Update_error_provenance_witness :
  fst (Update ReadReset_variant background
         (server [undecodable_columns] None None) idle) =
    Some (ScanColumnError 3) /\
  exists cols,
    In cols [undecodable_columns] /\ Scan cols = inl (ScanColumnError 3).
Proof.
  split; [reflexivity|].
  destruct (Update_error_provenance ReadReset_variant background
              (server [undecodable_columns] None None) (ScanColumnError 3)
              eq_refl) as [Hq | (rows & Hq & [(cols & Hin & Herr & _) | He])].
  - discriminate Hq.
  - injection Hq as <-. exists cols. split; [exact Hin | exact Herr].
  - injection Hq as <-. discriminate He.
Defined.

Lemma sent_metrics_well_formed_witness :
  In (MustNewConstMetric ReadReset.statStatementsRowsTotal CounterValue
        (float64_of_int64 1) ["app"; "prod"; "SELECT 1"])
     (ch (snd (Update ReadReset_variant background
                 (server [sample_columns] None None) idle))) /\
  List.length (variableLabels ReadReset.statStatementsRowsTotal) = 3%nat.
Proof.
  assert (Hin :
    In (MustNewConstMetric ReadReset.statStatementsRowsTotal CounterValue
          (float64_of_int64 1) ["app"; "prod"; "SELECT 1"])
       (ch (snd (Update ReadReset_variant background
                   (server [sample_columns] None None) idle))))
    by (right; right; right; left; reflexivity).
  destruct (sent_metrics_well_formed ReadReset_variant background
              (server [sample_columns] None None) _ Hin)
    as (_ & Hthree & Hsame & _).
  split; [exact Hin|]. etransitivity; [symmetry; exact Hsame | exact Hthree].
Defined.

Lemma ReadReset_typed_rows_witness :
  wire sample_typed_row = sample_columns /\
  fst (ReadReset.Update background
         (server [sample_columns] None None) idle) = None /\
  map labelValues
    (ch (snd (ReadReset.Update background
                (server [sample_columns] None None) idle))) =
    repeat ["app"; "prod"; "SELECT 1"] 6 /\
  map value
    (ch (snd (ReadReset.Update background
                (server [sample_columns] None None) idle))) =
    [float64_of_int64 42; f_0_01; f_0_02; float64_of_int64 1; f_0_001;
     float64_zero].
Proof.
  destruct (ReadReset_typed_rows background
              (server [sample_columns] None None) [sample_typed_row]
              eq_refl) as (_ & Hnil & Hlabels & Hvalues & _).
  split; [reflexivity|]. split; [exact Hnil|].
  split; [exact Hlabels | exact Hvalues].
Defined.

Lemma ReadReset_scan_error_is_numeric_witness :
  answers ReadReset.pgStatStatementsQuery
    {| rows_pending := [undecodable_columns]; rows_Err := None |} /\
  exists i, (3 <= i <= 8)%nat /\
    fst (ReadReset.Update background
           (server [undecodable_columns] None None) idle) =
      Some (ScanColumnError i).
Proof.
  assert (Hwidth : answers ReadReset.pgStatStatementsQuery
                     {| rows_pending := [undecodable_columns];
                        rows_Err := None |})
    by (repeat constructor).
  split; [exact Hwidth|].
  apply (ReadReset_scan_error_is_numeric background
           (server [undecodable_columns] None None)
           {| rows_pending := [undecodable_columns]; rows_Err := None |}
           eq_refl Hwidth).
  right. right. left. reflexivity.
Defined.

Lemma ReadReset_closes_iff_succeeds_witness :
  filter is_close
    (calls (snd (ReadReset.Update background
                   (server [undecodable_columns] None None) idle))) = [] /\
  In (CallNext false)
    (calls (snd (ReadReset.Update background
                   (server [sample_columns] (Some connection_lost) None)
                   idle))).
Proof.
  destruct (ReadReset_closes_iff_succeeds background
              (server [undecodable_columns] None None)) as (Hnone & _).
  destruct (ReadReset_closes_iff_succeeds background
              (server [sample_columns] (Some connection_lost) None))
    as (_ & Hnext).
  split; [exact Hnone|].
  destruct Hnext as [Hnext | (err & Hq)];
    [discriminate | reflexivity | exact Hnext | discriminate Hq].
Defined.
